(** * Agent Health Monitor: classification, aggregation and display rules

    A shallow embedding of [generate.py] and the properties of its core:
    the status classifier [get_status], the three-bucket loop and the
    report of [generate_dashboard], the card of [render_agent_card], the two
    formatters, and the session source [get_sessions].

    Modelling conventions.
    - A session is a Python [dict] decoded from JSON: a finite map from
      field names to scalar values ([None], [bool], [int], [str]).  JSON
      floats and nested containers as field values are outside the model;
      a statement about a field that is not a number names the values it
      holds for, [None] and strings.
    - Session dicts are heap objects.  The list handed to
      [generate_dashboard] holds references, the loop writes the three
      annotation keys through them, and the buckets hold the same
      references.
    - [datetime.now()] is a read of a clock that is part of the world: the
      i-th read returns [clock i], in epoch milliseconds.
    - Python's [float] is IEEE-754 binary64.  A finite float is modelled by
      the rational it denotes and every float operation used by the program
      is the exact result rounded to nearest, ties to even.
    - Exceptions are values: a computation returns [Ok] or [Raise].
    - CPython (3.11 and later, default [sys.int_max_str_digits]) refuses to
      convert an int of more than 4300 decimal digits to text and raises
      [ValueError].  The two formatters, which take any int, are modelled
      with this limit ([int_str]).  [str_int] is the decimal text itself
      and is used where the program bounds the number: the length of a
      list, the truncation of a finite float, the tenths of a float.  The
      text fields of a card ([label], [kind], [model]) are rendered by
      [str]; an int label beyond the limit, which [json.loads] refuses to
      decode, is outside the model.
    - [subprocess.run], [str.strip] and [json.loads] are parameters of the
      session source.  The file system is outside the model: [main] is
      modelled up to the [open] of line 388, it returns what it has printed
      by then and the page it hands to the writer.  Whether the write
      succeeds, and the two lines printed after it, are not modelled. *)

From Stdlib Require Import ZArith QArith Qround Qabs Qpower Lia Lqa SpecFloat.
From stdpp Require Import base decidable option strings gmap list pretty.

Local Open Scope Z_scope.

(** ** Python values, exceptions *)

Module Py.

Inductive value : Type :=
| VNone
| VBool (b : bool)
| VInt (n : Z)
| VStr (s : string).

#[global] Instance value_eq_dec : EqDecision value.
Proof. solve_decision. Defined.

Inductive exn : Type :=
| TypeError
| OverflowError
| ValueError.

#[global] Instance exn_eq_dec : EqDecision exn.
Proof. solve_decision. Defined.

Inductive result (A : Type) : Type :=
| Ok (a : A)
| Raise (e : exn).

Arguments Ok {A} a.
Arguments Raise {A} e.

(** [bool] is a subclass of [int]: [True] is 1 and [False] is 0 in
    arithmetic and in comparisons. *)
Definition as_int (v : value) : option Z :=
  match v with
  | VInt n => Some n
  | VBool b => Some (Z.b2z b)
  | VNone | VStr _ => None
  end.

(** Truth value of an object, as tested by [if v] and [not v]. *)
Definition truthy (v : value) : bool :=
  match v with
  | VNone => false
  | VBool b => b
  | VInt n => negb (n =? 0)
  | VStr s => negb (String.eqb s EmptyString)
  end.

(** [v == n] for an int literal [n]: never raises. *)
Definition eq_int (v : value) (n : Z) : bool :=
  match as_int v with
  | Some m => m =? n
  | None => false
  end.

(** [v > n], [v >= n] for an int literal [n]: ordering [None] or a [str]
    against an int raises [TypeError]. *)
Definition gt_int (v : value) (n : Z) : result bool :=
  match as_int v with
  | Some m => Ok (n <? m)
  | None => Raise TypeError
  end.

Definition ge_int (v : value) (n : Z) : result bool :=
  match as_int v with
  | Some m => Ok (n <=? m)
  | None => Raise TypeError
  end.

(** [n - v] for an int [n]. *)
Definition int_sub (n : Z) (v : value) : result Z :=
  match as_int v with
  | Some m => Ok (n - m)
  | None => Raise TypeError
  end.

(** [v // n] and [v % n] for a positive int literal [n]: floor division and
    the remainder with the sign of the divisor. *)
Definition floordiv_int (v : value) (n : Z) : result Z :=
  match as_int v with
  | Some m => Ok (m / n)
  | None => Raise TypeError
  end.

(** The decimal text of an int, with its sign. *)
Definition str_int (n : Z) : string := pretty n.

(** The default of [sys.int_max_str_digits]. *)
Definition max_str_digits : Z := 4300.

(** [str(n)] and the f-string field [{n}] for an int: [ValueError] when [n]
    has more than [max_str_digits] decimal digits, the sign not counted. *)
Definition int_str (n : Z) : result string :=
  if Z.abs n <? 10 ^ max_str_digits then Ok (str_int n) else Raise ValueError.

(** [str(v)], which is also what an f-string field [{v}] renders, for a
    value whose conversion succeeds. *)
Definition str (v : value) : string :=
  match v with
  | VNone => "None"
  | VBool true => "True"
  | VBool false => "False"
  | VInt n => str_int n
  | VStr s => s
  end.

(** [str(v)] with the limit on ints. *)
Definition str_value (v : value) : result string :=
  match v with
  | VInt n => int_str n
  | _ => Ok (str v)
  end.

(** [d.get(key, default)] *)
Definition get (d : gmap string value) (key : string) (dflt : value) : value :=
  default dflt (d !! key).

End Py.

Export Py.

Abbreviation dict := (gmap string value).

(** ** IEEE-754 binary64 *)

Module Binary64.

Definition pow2 (e : Z) : Q := Qpower 2 e.

(** [ilog2 q] is the integer [k] with [2^k <= |q| < 2^(k+1)], for [q <> 0]. *)
Definition ilog2 (q : Q) : Z :=
  let k := Z.log2 (Z.abs (Qnum q)) - Z.log2 (Zpos (Qden q)) in
  if Qle_bool (pow2 k) (Qabs q) then k else k - 1.

(** Nearest integer, ties to even. *)
Definition rne (q : Q) : Z :=
  let f := Qfloor q in
  match (q - inject_Z f ?= 1 # 2)%Q with
  | Lt => f
  | Gt => f + 1
  | Eq => if Z.even f then f else f + 1
  end.

(** Exponent of the unit in the last place of the binade of [q]: 53 bits of
    precision, and the subnormal grid [2^-1074] below [2^-1022]. *)
Definition ulp_exp (q : Q) : Z := Z.max (ilog2 q - 52) (-1074).

(** The real number [q] rounded to the binary64 grid (no exponent bound
    above: see [finite]). *)
Definition round (q : Q) : Q :=
  if Qeq_bool q 0 then 0%Q
  else (inject_Z (rne (q / pow2 (ulp_exp q))) * pow2 (ulp_exp q))%Q.

(** A rounded value is a float when it is below [2^1024]. *)
Definition finite (x : Q) : bool := negb (Qle_bool (pow2 1024) (Qabs x)).

(** [a / b] on two ints (true division) for a positive int literal [b]: the
    correctly rounded quotient, [OverflowError] when it is too large for a
    float. *)
Definition int_truediv (a b : Z) : result Q :=
  let x := round (inject_Z a / inject_Z b) in
  if finite x then Ok x else Raise OverflowError.

(** [x / b] on a float and a positive int literal: [b] converts exactly and
    the quotient, smaller than [x] in magnitude, is finite. *)
Definition float_truediv (x : Q) (b : Z) : Q := round (x / inject_Z b).

(** [int(x)]: truncation toward zero. *)
Definition trunc (x : Q) : Z := Z.quot (Qnum x) (Zpos (Qden x)).

(** [x > n] and [x < n] against an int literal are exact comparisons. *)
Definition gt_int (x : Q) (n : Z) : bool := negb (Qle_bool x (inject_Z n)).
Definition lt_int (x : Q) (n : Z) : bool := negb (Qle_bool (inject_Z n) x).

(** [f"{x:.1f}"]: the exact value of the float rounded to one decimal,
    ties to even. *)
Definition format_1f (x : Q) : string :=
  let t := rne (Qabs x * inject_Z 10) in
  ((if Qle_bool 0 x then EmptyString else "-"%string) +:+ str_int (t / 10) +:+ "." +:+ str_int (t mod 10))%string.

(** The same operations in the Standard Library's executable description
    of IEEE-754, [SpecFloat], to compare with: an int converted to a float,
    the division of two floats, and the rational a float denotes. *)
Definition spec_float_of_int (n : Z) : spec_float :=
  binary_normalize 53 1024 n 0 false.

Definition of_spec_float (f : spec_float) : option Q :=
  match f with
  | S754_zero _ => Some 0%Q
  | S754_finite s m e => Some (inject_Z (if s then Z.neg m else Z.pos m) * pow2 e)%Q
  | S754_infinity _ | S754_nan => None
  end.

Definition ieee_div_int (x : spec_float) (b : Z) : spec_float :=
  SFdiv 53 1024 x (spec_float_of_int b).

Definition agrees (f : spec_float) (q : Q) : bool :=
  match of_spec_float f with
  | Some x => Qeq_bool x q
  | None => false
  end.

End Binary64.

(** ** The world: heap of session dicts and the clock *)

Definition loc := nat.

Record world : Type := World {
  heap : loc -> dict;
  next : loc;
  clock : nat -> Z;
  ticks : nat
}.

Definition M (A : Type) : Type := world -> result (A * world).

Definition ret {A} (a : A) : M A := fun w => Ok (a, w).

Definition bind {A B} (c : M A) (k : A -> M B) : M B :=
  fun w => match c w with
           | Ok (a, w') => k a w'
           | Raise e => Raise e
           end.

Definition lift {A} (r : result A) : M A :=
  fun w => match r with
           | Ok a => Ok (a, w)
           | Raise e => Raise e
           end.

Notation "'do' x <- c ; k" := (bind c (fun x => k))
  (at level 10, x name, c at level 100, k at level 200).
Notation "'do' ' p <- c ; k" := (bind c (fun x => match x with p => k end))
  (at level 10, p pattern, c at level 100, k at level 200).
Notation "'exec' c ; k" := (bind c (fun _ => k))
  (at level 10, c at level 100, k at level 200).

(** [int(datetime.now().timestamp() * 1000)]: one read of the clock. *)
Definition now_ms : M Z :=
  fun w => Ok (clock w (ticks w),
               World (heap w) (next w) (clock w) (S (ticks w))).

(** Reading the dict behind a reference. *)
Definition deref (s : loc) : M dict := fun w => Ok (heap w s, w).

(** [s[key] = v] *)
Definition setitem (s : loc) (key : string) (v : value) : M unit :=
  fun w => Ok (tt, World (fun l => if decide (l = s) then <[key := v]> (heap w l) else heap w l)
                         (next w) (clock w) (ticks w)).

(** A new dict object, as [json.loads] creates one per JSON object. *)
Definition alloc (d : dict) : M loc :=
  fun w => Ok (next w, World (fun l => if decide (l = next w) then d else heap w l)
                             (S (next w)) (clock w) (ticks w)).

Fixpoint mapM {A B} (f : A -> M B) (l : list A) : M (list B) :=
  match l with
  | [] => ret []
  | a :: l' => do b <- f a; do bs <- mapM f l'; ret (b :: bs)
  end.

(** ** The program *)

Module Monitor.

Import Binary64.

(** [format_duration(ms)], lines 29-37. *)
Definition format_duration (ms : value) : result string :=
  if negb (truthy ms) then Ok "N/A"%string
  else
    match floordiv_int ms 60000 with
    | Raise e => Raise e
    | Ok minutes =>
        let hours := minutes / 60 in
        if 0 <? hours
        then
          match int_str hours with
          | Raise e => Raise e
          | Ok h =>
              match int_str (minutes mod 60) with
              | Raise e => Raise e
              | Ok m => Ok (h +:+ "h " +:+ m +:+ "m")%string
              end
          end
        else
          match int_str minutes with
          | Raise e => Raise e
          | Ok m => Ok (m +:+ "m")%string
          end
    end.

(** [v / b] for a positive int literal [b]. *)
Definition truediv (v : value) (b : Z) : result Q :=
  match as_int v with
  | Some a => int_truediv a b
  | None => Raise TypeError
  end.

(** [format_tokens(tokens)], lines 39-45. *)
Definition format_tokens (tokens : value) : result string :=
  if negb (truthy tokens) then Ok "0"%string
  else
    match ge_int tokens 1000 with
    | Raise e => Raise e
    | Ok true =>
        match truediv tokens 1000 with
        | Raise e => Raise e
        | Ok x => Ok (format_1f x +:+ "k")%string
        end
    | Ok false => str_value tokens
    end.

(** The idle time in minutes, [(now - updated) / 1000 / 60], as computed on
    lines 52 and 360. *)
Definition idle_minutes (now : Z) (updated : value) : result Q :=
  match int_sub now updated with
  | Raise e => Raise e
  | Ok d =>
      match int_truediv d 1000 with
      | Raise e => Raise e
      | Ok x => Ok (float_truediv x 60)
      end
  end.

(** The float [d / 1000 / 60] for an int [d] whose first quotient is
    finite. *)
Definition idle_float (d : Z) : Q :=
  float_truediv (round (inject_Z d / inject_Z 1000)) 60.

(** The number of tenths that [f"{n/1000:.1f}"] prints for an int [n]. *)
Definition tenths (n : Z) : Z :=
  rne (Qabs (round (inject_Z n / inject_Z 1000)) * inject_Z 10).

(** [get_status(session)], lines 47-61: the status, its icon and its
    colour. *)
Definition get_status (session : dict) : M (string * string * string) :=
  let tokens := get session "totalTokens" (VInt 0) in
  let updated := get session "updatedAt" (VInt 0) in
  do now <- now_ms;
  do idle_time <- lift (idle_minutes now updated);
  if eq_int tokens 0 && gt_int idle_time 5
  then ret ("stuck", "⚠️", "#f85149")%string
  else if lt_int idle_time 2
  then ret ("active", "🟢", "#3fb950")%string
  else
    do pos <- lift (Py.gt_int tokens 0);
    if pos
    then ret ("completed", "✅", "#58a6ff")%string
    else ret ("idle", "⚪", "#8b949e")%string.

(** The three buckets, in the order [(active, completed, stuck)]. *)
Definition buckets : Type := list loc * list loc * list loc.

(** The loop of [generate_dashboard], lines 66-82. *)
Fixpoint categorize_from (sessions : list loc) (active completed stuck : list loc)
  : M buckets :=
  match sessions with
  | [] => ret (active, completed, stuck)
  | s :: rest =>
      do session <- deref s;
      do '(status, icon, color) <- get_status session;
      exec setitem s "_status" (VStr status);
      exec setitem s "_icon" (VStr icon);
      exec setitem s "_color" (VStr color);
      if decide (status = "active"%string)
      then categorize_from rest (active ++ [s]) completed stuck
      else if decide (status = "completed"%string)
      then categorize_from rest active (completed ++ [s]) stuck
      else if decide (status = "stuck"%string)
      then categorize_from rest active completed (stuck ++ [s])
      else categorize_from rest active completed stuck
  end.

Definition categorize (sessions : list loc) : M buckets :=
  categorize_from sessions [] [] [].

(** The interpolated fields of one agent card, lines 362-377. *)
Record card : Type := Card {
  card_icon : string;
  card_label : string;
  card_kind : string;
  card_model : string;
  card_idle : string;
  card_tokens : string;
  card_status : string
}.

(** [render_agent_card(session)], lines 347-377. *)
Definition render_agent_card (s : loc) : M card :=
  do session <- deref s;
  let label := get session "label" (VStr "unnamed") in
  let kind := get session "kind" (VStr "unknown") in
  let tokens := get session "totalTokens" (VInt 0) in
  let model := get session "model" (VStr "unknown") in
  let updated := get session "updatedAt" (VInt 0) in
  let status := get session "_status" (VStr "unknown") in
  let icon := get session "_icon" (VStr "⚪") in
  do now <- now_ms;
  do idle <- lift (idle_minutes now updated);
  let idle_minutes := trunc idle in
  do tokens_display <- lift (format_tokens tokens);
  ret {| card_icon := str icon;
         card_label := str label;
         card_kind := str kind;
         card_model := str model;
         card_idle := (str_int idle_minutes +:+ "m")%string;
         card_tokens := tokens_display;
         card_status := str status |}.

(** The document built by [generate_dashboard]: every constructor stands for
    a literal block of the template and carries what is interpolated into
    it. *)
Inductive block : Type :=
| Header (last_updated : Z)
    (* lines 84-260: style sheet, title, "Last updated" with the clock *)
| StatsGrid (active completed stuck total : string)
    (* lines 262-280: the four stat cards *)
| AgentSection (name : string) (cards : list card) (more : option string)
    (* lines 284-325: a bucket's section, its cards, and for the completed
       bucket the "... and N more" paragraph *)
| EmptyState
    (* lines 327-333: "No agents found" *)
| Footer.
    (* lines 335-343 *)

Definition html : Type := list block.

Definition len {A} (l : list A) : Z := Z.of_nat (length l).

(** The report of [generate_dashboard], lines 84-345. *)
Definition render (sessions : list loc) (b : buckets) : M html :=
  let '(active, completed, stuck) := b in
  do stamp <- now_ms;
  let page :=
    [ Header stamp;
      StatsGrid (str_int (len active)) (str_int (len completed))
                (str_int (len stuck)) (str_int (len sessions)) ] in
  do page <-
    match active with
    | [] => ret page
    | _ => do cards <- mapM render_agent_card active;
           ret (page ++ [AgentSection "active" cards None])
    end;
  do page <-
    match completed with
    | [] => ret page
    | _ => do cards <- mapM render_agent_card (take 10 completed);
           let more := if 10 <? len completed
                       then Some (str_int (len completed - 10)) else None in
           ret (page ++ [AgentSection "completed" cards more])
    end;
  do page <-
    match stuck with
    | [] => ret page
    | _ => do cards <- mapM render_agent_card stuck;
           ret (page ++ [AgentSection "stuck" cards None])
    end;
  let page := match sessions with [] => page ++ [EmptyState] | _ => page end in
  ret (page ++ [Footer]).

(** [generate_dashboard(sessions)], lines 63-345. *)
Definition generate_dashboard (sessions : list loc) : M html :=
  do b <- categorize sessions;
  render sessions b.

(** What [json.loads] returns on the output of the session source: an object
    whose ["sessions"] key, when present, holds the list of session
    objects, or a JSON value that is not an object.  An object that holds
    something else under ["sessions"] ([null], a number, a list with other
    members than objects) is outside this type: [get_sessions] returns that
    value as it is and its callers raise on it.  Every statement about
    [get_sessions] names the shape of the document it holds for. *)
Inductive document : Type :=
| DocObject (sessions : option (list dict))
| DocOther.

Definition sessions_command : string :=
  "openclaw sessions list --active-minutes 360 --limit 20 --json".

Section Source.

(** [subprocess.run(cmd, shell=True, capture_output=True, text=True)]:
    the captured standard output, or the message of the exception it
    raised. *)
Variable subprocess_run : string -> string + string.

(** [str.strip] *)
Variable strip : string -> string.

(** [json.loads]: [None] when it raises. *)
Variable json_loads : string -> option document.

(** [run_command(cmd)], lines 12-18. *)
Definition run_command (cmd : string) : string :=
  match subprocess_run cmd with
  | inr stdout => strip stdout
  | inl e => ("Error: " +:+ e)%string
  end.

(** [get_sessions()], lines 20-27.  The bare [except] turns a decoding
    error, and the [AttributeError] of [.get] on a non-object, into the
    empty list. *)
Definition get_sessions : M (list loc) :=
  let output := run_command sessions_command in
  match json_loads output with
  | Some (DocObject (Some sessions)) => mapM alloc sessions
  | Some (DocObject None) => ret []
  | Some DocOther => ret []
  | None => ret []
  end.

(** [main()] up to the write, lines 379-387: the lines printed before
    [open] is called, and the document handed to [f.write] under the path
    [output_path]. *)
Record run : Type := Run {
  stdout : list string;
  output_path : string;
  index_html : html
}.

Definition main : M run :=
  do sessions <- get_sessions;
  do page <- generate_dashboard sessions;
  ret {| stdout :=
           [ "🔍 Fetching agent sessions...";
             "📊 Found " +:+ str_int (len sessions) +:+ " sessions";
             "🎨 Generating dashboard..." ]%string;
         output_path := "/Users/patrickaltmann/clawd-second/agent-monitor/index.html";
         index_html := page |}.

End Source.

End Monitor.

Export Monitor.

(** ** The specification's vocabulary *)

Module Spec.

(** A numeric field of a session record: an int, 0 when the key is
    absent. *)
Definition field_int (session : dict) (key : string) : option Z :=
  match session !! key with
  | None => Some 0
  | Some (VInt n) => Some n
  | Some _ => None
  end.

(** [idleMinutes = (now - updatedAt) / 60000], as a real number. *)
Definition idle_minutes (now updated : Z) : Q :=
  inject_Z (now - updated) / inject_Z 60000.

Definition Qltb (x y : Q) : bool := negb (Qle_bool y x).

(** The decision rule of the classifier, first match wins. *)
Definition status (tokens updated now : Z) : string :=
  let idle := idle_minutes now updated in
  if (tokens =? 0) && Qltb 5 idle then "stuck"
  else if Qltb idle 2 then "active"
  else if 0 <? tokens then "completed"
  else "idle".

Definition statuses : list string := ["stuck"; "active"; "completed"; "idle"]%string.

(** A number of tenths written with one decimal place. *)
Definition one_decimal (t : Z) : string :=
  (str_int (t / 10) +:+ "." +:+ str_int (t mod 10))%string.

(** [tokensDisplay]: ["0"] for zero, the integer as it is below 1000, and
    from 1000 on the count divided by 1000 to one decimal place, that is a
    nearest number of tenths, followed by [k]. *)
Definition tokens_display (n : Z) (s : string) : Prop :=
  if n =? 0 then s = "0"%string
  else if n <? 1000 then s = str_int n
  else exists t : Z,
      100 * t - 50 <= n <= 100 * t + 50 /\ s = (one_decimal t +:+ "k")%string.

(** [durationDisplay]: ["N/A"] for zero, else whole minutes, with the hours
    apart from 60 minutes on. *)
Definition duration_display (ms : Z) : string :=
  let minutes := ms / 60000 in
  if ms =? 0 then "N/A"%string
  else if 60 <=? minutes
  then (str_int (minutes / 60) +:+ "h " +:+ str_int (minutes mod 60) +:+ "m")%string
  else (str_int minutes +:+ "m")%string.

(** [idleMinutesDisplay]: idle minutes truncated toward zero, labelled
    [m]. *)
Definition idle_minutes_display (now updated : Z) : string :=
  (str_int (Z.quot (now - updated) 60000) +:+ "m")%string.

End Spec.

(** ** Inputs and observations *)

(** An int whose quotient by 1000 is a finite float. *)
Definition float_range (d : Z) : Prop := Z.abs d < 2 ^ 1024.

(** A record the classifier accepts: its numeric fields are ints or
    absent, and the idle time is in the range of floats at every reading of
    the clock. *)
Definition classifiable (w : world) (session : dict) : Prop :=
  exists tokens updated : Z,
    Spec.field_int session "totalTokens" = Some tokens /\
    Spec.field_int session "updatedAt" = Some updated /\
    forall i : nat, float_range (clock w i - updated).

(** A record whose card can be rendered as well. *)
Definition displayable (w : world) (session : dict) : Prop :=
  classifiable w session /\
  exists tokens : Z,
    Spec.field_int session "totalTokens" = Some tokens /\ float_range tokens.

(** The keys written by the loop of [generate_dashboard]. *)
Definition annotation_keys : list string := ["_status"; "_icon"; "_color"]%string.

(** The three writes of one iteration. *)
Definition annotate (r : string * string * string) (session : dict) : dict :=
  let '(status, icon, color) := r in
  <["_color" := VStr color]> (<["_icon" := VStr icon]> (<["_status" := VStr status]> session)).

(** The status tag of the object behind a reference. *)
Definition tagged (w : world) (name : string) (s : loc) : Prop :=
  heap w s !! "_status"%string = Some (VStr name).

#[global] Instance tagged_dec w name s : Decision (tagged w name s).
Proof. unfold tagged. apply _. Defined.

(** Appending a reference to the bucket named by its status. *)
Definition put (name status : string) (s : loc) (bucket : list loc) : list loc :=
  if decide (status = name) then bucket ++ [s] else bucket.

(** The decision of [get_status] at a given reading [now] of the clock. *)
Definition classify (session : dict) (now : Z) : result (string * string * string) :=
  let tokens := get session "totalTokens" (VInt 0) in
  let updated := get session "updatedAt" (VInt 0) in
  match idle_minutes now updated with
  | Raise e => Raise e
  | Ok idle_time =>
      if eq_int tokens 0 && Binary64.gt_int idle_time 5
      then Ok ("stuck", "⚠️", "#f85149")%string
      else if Binary64.lt_int idle_time 2
      then Ok ("active", "🟢", "#3fb950")%string
      else
        match Py.gt_int tokens 0 with
        | Raise e => Raise e
        | Ok true => Ok ("completed", "✅", "#58a6ff")%string
        | Ok false => Ok ("idle", "⚪", "#8b949e")%string
        end
  end.

(** Two records with the same input to the classifier. *)
Definition same_input (d1 d2 : dict) : Prop :=
  d1 !! "totalTokens"%string = d2 !! "totalTokens"%string /\
  d1 !! "updatedAt"%string = d2 !! "updatedAt"%string.

(** A bucket's section of the page: absent when the bucket is empty. *)
Definition section_of (name : string) (bucket : list loc) (cards : list card)
    (more : option string) : html :=
  match bucket with
  | [] => []
  | _ => [AgentSection name cards more]
  end.

(** The world after one read of the clock. *)
Definition tick (w : world) : world :=
  World (heap w) (next w) (clock w) (S (ticks w)).

(** The value or the exception of a run. *)
Definition outcome {A} (r : result (A * world)) : result A :=
  match r with
  | Ok (a, _) => Ok a
  | Raise e => Raise e
  end.

(** What a card shows of a session dict, the idle time apart. *)
Definition card_of (session : dict) (c : card) : Prop :=
  card_icon c = str (get session "_icon" (VStr "⚪")) /\
  card_label c = str (get session "label" (VStr "unnamed")) /\
  card_kind c = str (get session "kind" (VStr "unknown")) /\
  card_model c = str (get session "model" (VStr "unknown")) /\
  format_tokens (get session "totalTokens" (VInt 0)) = Ok (card_tokens c) /\
  card_status c = str (get session "_status" (VStr "unknown")).

(** The four results of [get_status]: a status with its icon and its
    colour. *)
Definition presentations : list (string * string * string) :=
  [ ("stuck", "⚠️", "#f85149"); ("active", "🟢", "#3fb950");
    ("completed", "✅", "#58a6ff"); ("idle", "⚪", "#8b949e") ]%string.

(** A dict that carries the three annotation keys of a result. *)
Definition presented (session : dict) (r : string * string * string) : Prop :=
  let '(status, icon, color) := r in
  session !! "_status"%string = Some (VStr status) /\
  session !! "_icon"%string = Some (VStr icon) /\
  session !! "_color"%string = Some (VStr color).

(** The blocks of a page that are sections of the given bucket name. *)
Definition cards_in (name : string) (page : html) : list card :=
  List.concat (map (fun b => match b with
                             | AgentSection n cards _ =>
                                 if decide (n = name) then cards else []
                             | _ => []
                             end) page).

(** ** Sample inputs *)

Module Examples.

Definition now0 : Z := 1700000000000.

(** A clock that advances one millisecond per reading for its first
    hundred readings. *)
Definition clock0 (i : nat) : Z := now0 + Z.of_nat (Nat.min i 100).

Definition record (tokens : Z) (idle_ms : Z) : dict :=
  <["totalTokens" := VInt tokens]> (<["updatedAt" := VInt (now0 - idle_ms)]> ∅).

Definition rec_active : dict := record 0 60000.
Definition rec_stuck : dict := record 0 600000.
Definition rec_completed : dict := <["label" := VStr "build"]> (record 500 180000).
Definition rec_idle : dict := record 0 180000.
Definition rec_bare : dict := <["label" := VStr "bare"]> ∅.
Definition rec_half : dict := record 0 330000.

(** A record whose [updatedAt] is JSON [null]. *)
Definition rec_null : dict := <["updatedAt" := VNone]> ∅.

(** The heap holding the given records at the references [0, 1, ...]. *)
Definition heap_of (records : list dict) : loc -> dict :=
  fun l => default ∅ (records !! l).

Definition world_of (records : list dict) : world :=
  World (heap_of records) (length records) clock0 0.

Definition records5 : list dict :=
  [rec_active; rec_stuck; rec_completed; rec_idle; rec_bare].

Definition records12 : list dict :=
  replicate 12 rec_completed.

(** The same records under other labels, in a world with a steady clock
    that has already been read. *)
Definition relabel (d : dict) : dict := <["label" := VStr "other"]> d.

Definition steady (records : list dict) (reads : nat) : world :=
  World (heap_of records) (length records) (fun _ => now0) reads.

(** A session source whose command prints a document that decodes to the
    given records, and a world with nothing allocated yet. *)
Definition run_ok : string -> string + string := fun _ => inr "{}"%string.
Definition no_strip : string -> string := fun s => s.
Definition loads_of (records : list dict) : string -> option document :=
  fun _ => Some (DocObject (Some records)).

Definition fresh_world : world := World (fun _ => ∅) 0%nat clock0 0%nat.

Definition records_idle : list dict := [rec_idle; relabel rec_idle].

(** A record stamped thirty seconds after [now0]. *)
Definition rec_future : dict := record 0 (-30000).

End Examples.

Import Binary64.

(** * Facts: powers of two *)

Section Pow2.
Local Open Scope Q_scope.

Lemma pow2_pos e : 0 < pow2 e.
Proof. apply Qpower_0_lt. reflexivity. Qed.

Lemma pow2_add a b : pow2 (a + b) == pow2 a * pow2 b.
Proof. apply Qpower_plus. discriminate. Qed.

Lemma pow2_le a b : (a <= b)%Z -> pow2 a <= pow2 b.
Proof. intros H. apply Qpower_le_compat_l; [exact H | discriminate]. Qed.

Lemma pow2_lt a b : (a < b)%Z -> pow2 a < pow2 b.
Proof. intros H. apply Qpower_lt_compat_l; [exact H | reflexivity]. Qed.

Lemma pow2_Z e : (0 <= e)%Z -> pow2 e == inject_Z (2 ^ e).
Proof. intros H. unfold pow2. rewrite Zpower_Qpower by exact H. reflexivity. Qed.

Lemma pow2_succ e : pow2 (e + 1) == 2 * pow2 e.
Proof. rewrite pow2_add. unfold pow2 at 2. simpl. lra. Qed.

Lemma pow2_sub a b : pow2 (a - b) == pow2 a / pow2 b.
Proof.
  assert (H := pow2_add (a - b) b). replace (a - b + b)%Z with a in H by lia.
  assert (Hb := pow2_pos b). rewrite H. field. lra.
Qed.
End Pow2.

(** * Facts: binary logarithm and rounding to the nearest integer *)

Section Rne.
Local Open Scope Q_scope.

Lemma Qabs_frac q : Qabs q == inject_Z (Z.abs (Qnum q)) / inject_Z (Zpos (Qden q)).
Proof.
  destruct q as [n d]. unfold Qabs, Qeq, Qdiv, Qmult, Qinv, inject_Z. simpl. lia.
Qed.

Lemma ilog2_spec q : ~ q == 0 -> pow2 (ilog2 q) <= Qabs q /\ Qabs q < pow2 (ilog2 q + 1).
Proof.
  intros Hq. unfold ilog2.
  set (a := Z.abs (Qnum q)). set (b := Zpos (Qden q)).
  assert (Ha : (0 < a)%Z).
  { subst a. destruct q as [n d]. unfold Qeq in Hq. simpl in *. lia. }
  assert (Hb : (0 < b)%Z) by (subst b; lia).
  destruct (Z.log2_spec a Ha) as [Ha1 Ha2].
  destruct (Z.log2_spec b Hb) as [Hb1 Hb2].
  assert (Hla := Z.log2_nonneg a). assert (Hlb := Z.log2_nonneg b).
  set (la := Z.log2 a) in *. set (lb := Z.log2 b) in *.
  assert (Eabs : Qabs q == inject_Z a / inject_Z b) by apply Qabs_frac.
  assert (Ea : pow2 la == inject_Z (2 ^ la)) by (apply pow2_Z; lia).
  assert (Eb : pow2 lb == inject_Z (2 ^ lb)) by (apply pow2_Z; lia).
  assert (Ea' : pow2 (la + 1) == inject_Z (2 ^ Z.succ la)) by (apply pow2_Z; lia).
  assert (Eb' : pow2 (lb + 1) == inject_Z (2 ^ Z.succ lb)) by (apply pow2_Z; lia).
  assert (Qa1 : pow2 la <= inject_Z a) by (rewrite Ea, <- Zle_Qle; lia).
  assert (Qa2 : inject_Z a < pow2 (la + 1)) by (rewrite Ea', <- Zlt_Qlt; lia).
  assert (Qb1 : pow2 lb <= inject_Z b) by (rewrite Eb, <- Zle_Qle; lia).
  assert (Qb2 : inject_Z b < pow2 (lb + 1)) by (rewrite Eb', <- Zlt_Qlt; lia).
  assert (Pb : 0 < inject_Z b) by (replace 0 with (inject_Z 0) by reflexivity; rewrite <- Zlt_Qlt; lia).
  assert (Plb := pow2_pos lb). assert (Pla := pow2_pos la).
  assert (Sa := pow2_succ la). assert (Sb := pow2_succ lb).
  assert (Ek := pow2_sub la lb).
  assert (Pk := pow2_pos (la - lb)).
  assert (Ek' : pow2 (la - lb) * pow2 lb == pow2 la) by (rewrite Ek; field; lra).
  assert (Eq' : Qabs q * inject_Z b == inject_Z a) by (rewrite Eabs; field; lra).
  destruct (Qle_bool (pow2 (la - lb)) (Qabs q)) eqn:E.
  - apply Qle_bool_iff in E. split; [exact E|].
    rewrite pow2_succ.
    apply Qmult_lt_r with (z := inject_Z b); [exact Pb|].
    rewrite Eq'.
    apply Qlt_le_trans with (1 := Qa2). rewrite Sa, <- Ek'.
    assert (0 <= pow2 (la - lb) * (inject_Z b - pow2 lb)) by (apply Qmult_le_0_compat; lra).
    lra.
  - assert (E' : Qabs q < pow2 (la - lb)).
    { apply Qnot_le_lt. intros C. apply Qle_bool_iff in C. congruence. }
    replace (la - lb - 1 + 1)%Z with (la - lb)%Z by lia. split; [|exact E'].
    assert (Ek1 := pow2_succ (la - lb - 1)).
    replace (la - lb - 1 + 1)%Z with (la - lb)%Z in Ek1 by lia.
    apply Qmult_le_r with (z := inject_Z b); [exact Pb|].
    rewrite Eq'.
    apply Qle_trans with (2 := Qa1). rewrite <- Ek', Ek1.
    assert (P1 := pow2_pos (la - lb - 1)).
    assert (0 <= pow2 (la - lb - 1) * (2 * pow2 lb - inject_Z b)) by (apply Qmult_le_0_compat; lra).
    lra.
Qed.

Lemma rne_bounds x : inject_Z (rne x) - (1#2) <= x /\ x <= inject_Z (rne x) + (1#2).
Proof.
  unfold rne. assert (H1 := Qfloor_le x). assert (H2 := Qlt_floor x).
  rewrite inject_Z_plus in H2. change (inject_Z 1) with 1 in H2.
  destruct (x - inject_Z (Qfloor x) ?= 1 # 2) eqn:E.
  - apply Qeq_alt in E. destruct (Z.even (Qfloor x)).
    + lra.
    + rewrite inject_Z_plus. change (inject_Z 1) with 1. lra.
  - apply Qlt_alt in E. lra.
  - apply Qgt_alt in E. rewrite inject_Z_plus. change (inject_Z 1) with 1. lra.
Qed.

Lemma rne_Z n : rne (inject_Z n) = n.
Proof.
  unfold rne. rewrite Qfloor_Z.
  assert (E : (inject_Z n - inject_Z n ?= 1 # 2) = Lt).
  { apply (proj1 (Qlt_alt _ _)). lra. }
  rewrite E. reflexivity.
Qed.

Lemma rne_comp x y : x == y -> rne x = rne y.
Proof.
  intros H. unfold rne. rewrite (Qfloor_comp _ _ H).
  assert (E : (x - inject_Z (Qfloor y) ?= 1 # 2) = (y - inject_Z (Qfloor y) ?= 1 # 2)).
  { apply Qcompare_comp; [rewrite H; reflexivity | reflexivity]. }
  rewrite E. reflexivity.
Qed.

Lemma rne_mono x y : x <= y -> (rne x <= rne y)%Z.
Proof.
  intros H. assert (Hf := Qfloor_resp_le _ _ H).
  assert (Hx1 := Qfloor_le x). assert (Hx2 := Qlt_floor x).
  assert (Hy1 := Qfloor_le y). assert (Hy2 := Qlt_floor y).
  rewrite inject_Z_plus in Hx2, Hy2. change (inject_Z 1) with 1 in Hx2, Hy2.
  assert (Hr : (rne x <= Qfloor x + 1)%Z /\ (Qfloor y <= rne y)%Z).
  { unfold rne. split.
    - destruct (_ ?= _); [destruct (Z.even _)| |]; lia.
    - destruct (_ ?= _); [destruct (Z.even _)| |]; lia. }
  destruct (Z.eq_dec (Qfloor x) (Qfloor y)) as [Ef | Nf]; [|lia].
  unfold rne. rewrite Ef.
  destruct (x - inject_Z (Qfloor y) ?= 1 # 2) eqn:Ex;
    destruct (y - inject_Z (Qfloor y) ?= 1 # 2) eqn:Ey;
    try (destruct (Z.even (Qfloor y))); try lia;
    repeat match goal with
    | H : (_ ?= _) = Eq |- _ => apply Qeq_alt in H
    | H : (_ ?= _) = Lt |- _ => apply Qlt_alt in H
    | H : (_ ?= _) = Gt |- _ => apply Qgt_alt in H
    end; exfalso; lra.
Qed.

Lemma rne_opp x : rne (- x) = (- rne x)%Z.
Proof.
  assert (B1 := rne_bounds x). assert (B2 := rne_bounds (- x)).
  assert (Hx1 := Qfloor_le x). assert (Hx2 := Qlt_floor x).
  assert (Hy1 := Qfloor_le (-x)). assert (Hy2 := Qlt_floor (-x)).
  rewrite inject_Z_plus in Hx2, Hy2. change (inject_Z 1) with 1 in Hx2, Hy2.
  destruct (Qeq_dec x (inject_Z (Qfloor x))) as [Ei | Ni].
  - rewrite (rne_comp x _ Ei), rne_Z.
    assert (E' : - x == inject_Z (- Qfloor x)) by (rewrite inject_Z_opp, <- Ei; reflexivity).
    rewrite (rne_comp _ _ E'), rne_Z. reflexivity.
  - assert (Ef : Qfloor (- x) = (- Qfloor x - 1)%Z).
    { assert (inject_Z (Qfloor (-x)) < inject_Z (- Qfloor x)) as L1.
      { rewrite inject_Z_opp. lra. }
      assert (inject_Z (- Qfloor x - 2) < inject_Z (Qfloor (-x))) as L2.
      { replace (- Qfloor x - 2)%Z with (- Qfloor x + -2)%Z by lia.
        rewrite inject_Z_plus, inject_Z_opp.
        change (inject_Z (-2)) with (-2). lra. }
      rewrite <- Zlt_Qlt in L1, L2. lia. }
    unfold rne. rewrite Ef.
    assert (Ec : (- x - inject_Z (- Qfloor x - 1) ?= 1 # 2) = CompOpp (x - inject_Z (Qfloor x) ?= 1 # 2)).
    { replace (- Qfloor x - 1)%Z with (- Qfloor x + -1)%Z by lia.
      rewrite inject_Z_plus, inject_Z_opp. change (inject_Z (-1)) with (-1).
      destruct (x - inject_Z (Qfloor x) ?= 1 # 2) eqn:E; simpl.
      - apply Qeq_alt in E. apply (proj1 (Qeq_alt _ _)). lra.
      - apply Qlt_alt in E. apply (proj1 (Qgt_alt _ _)). lra.
      - apply Qgt_alt in E. apply (proj1 (Qlt_alt _ _)). lra. }
    rewrite Ec. destruct (x - inject_Z (Qfloor x) ?= 1 # 2); simpl; try lia.
    replace (- Qfloor x - 1)%Z with (- (Qfloor x + 1))%Z by lia.
    rewrite Z.even_opp. rewrite Z.even_add. simpl.
    destruct (Z.even (Qfloor x)); simpl; lia.
Qed.
End Rne.

(** * Facts: binades *)

Section Round.
Local Open Scope Q_scope.

Lemma pow2_binade_unique v a b :
  pow2 a <= v -> v < pow2 (a + 1) -> pow2 b <= v -> v < pow2 (b + 1) -> a = b.
Proof.
  intros A1 A2 B1 B2.
  destruct (Z.lt_trichotomy a b) as [L | [E | L]]; [exfalso | exact E | exfalso].
  - assert (H := pow2_le (a + 1) b ltac:(lia)). lra.
  - assert (H := pow2_le (b + 1) a ltac:(lia)). lra.
Qed.

Lemma ilog2_comp x y : ~ x == 0 -> x == y -> ilog2 x = ilog2 y.
Proof.
  intros Hx E. assert (Hy : ~ y == 0) by (rewrite <- E; exact Hx).
  destruct (ilog2_spec x Hx) as [X1 X2]. destruct (ilog2_spec y Hy) as [Y1 Y2].
  assert (Ea : Qabs x == Qabs y) by (apply Qabs_wd; exact E).
  apply pow2_binade_unique with (v := Qabs x); lra.
Qed.

Lemma ilog2_mono x y : ~ x == 0 -> Qabs x <= Qabs y -> (ilog2 x <= ilog2 y)%Z.
Proof.
  intros Hx L.
  assert (Hy : ~ y == 0).
  { intros E. assert (Ea : Qabs y == 0) by (rewrite (Qabs_wd _ _ E); reflexivity).
    apply Hx. revert L. rewrite Ea. apply Qabs_case; intros; lra. }
  destruct (ilog2_spec x Hx) as [X1 X2]. destruct (ilog2_spec y Hy) as [Y1 Y2].
  destruct (Z_le_gt_dec (ilog2 x) (ilog2 y)) as [G | G]; [exact G | exfalso].
  assert (H := pow2_le (ilog2 y + 1) (ilog2 x) ltac:(lia)). lra.
Qed.
End Round.

(** * Facts: rounding to binary64 is monotone and odd *)

Section Round.
Local Open Scope Q_scope.

Lemma round_zero q : q == 0 -> round q == 0.
Proof.
  intros H. unfold round. apply Qeq_bool_iff in H. rewrite H. reflexivity.
Qed.

Lemma round_nz q :
  ~ q == 0 -> round q == inject_Z (rne (q / pow2 (ulp_exp q))) * pow2 (ulp_exp q).
Proof.
  intros H. unfold round. destruct (Qeq_bool q 0) eqn:E; [|reflexivity].
  apply Qeq_bool_iff in E. contradiction.
Qed.

Lemma ulp_exp_comp x y : ~ x == 0 -> x == y -> ulp_exp x = ulp_exp y.
Proof. intros Hx E. unfold ulp_exp. rewrite (ilog2_comp x y Hx E). reflexivity. Qed.

Lemma ilog2_opp q : ~ q == 0 -> ilog2 (- q) = ilog2 q.
Proof.
  intros Hq. assert (Hn : ~ - q == 0) by (intros E; apply Hq; lra).
  destruct (ilog2_spec q Hq) as [X1 X2]. destruct (ilog2_spec _ Hn) as [Y1 Y2].
  assert (Ea := Qabs_opp q).
  apply pow2_binade_unique with (v := Qabs q); lra.
Qed.

Lemma round_comp x y : x == y -> round x == round y.
Proof.
  intros E. destruct (Qeq_dec x 0) as [Z0 | NZ].
  - rewrite (round_zero x Z0), (round_zero y); [reflexivity | lra].
  - assert (NZy : ~ y == 0) by (intros C; apply NZ; lra).
    rewrite (round_nz x NZ), (round_nz y NZy), (ulp_exp_comp x y NZ E).
    assert (P := pow2_pos (ulp_exp y)).
    rewrite (rne_comp (x / pow2 (ulp_exp y)) (y / pow2 (ulp_exp y))); [reflexivity|].
    rewrite E. reflexivity.
Qed.

Lemma round_opp q : round (- q) == - round q.
Proof.
  destruct (Qeq_dec q 0) as [Z0 | NZ].
  - rewrite (round_zero q Z0), (round_zero (- q)); lra.
  - assert (Hn : ~ - q == 0) by (intros E; apply NZ; lra).
    rewrite (round_nz q NZ), (round_nz _ Hn).
    unfold ulp_exp. rewrite (ilog2_opp q NZ). fold (ulp_exp q).
    assert (P := pow2_pos (ulp_exp q)).
    rewrite (rne_comp (- q / pow2 (ulp_exp q)) (- (q / pow2 (ulp_exp q)))) by (field; lra).
    rewrite rne_opp, inject_Z_opp. ring.
Qed.

Lemma rne_le_Z x n : x <= inject_Z n -> (rne x <= n)%Z.
Proof. intros H. rewrite <- (rne_Z n). apply rne_mono. exact H. Qed.

Lemma rne_ge_Z x n : inject_Z n <= x -> (n <= rne x)%Z.
Proof. intros H. rewrite <- (rne_Z n). apply rne_mono. exact H. Qed.

Lemma round_nonneg q : 0 <= q -> 0 <= round q.
Proof.
  intros H. destruct (Qeq_dec q 0) as [Z0 | NZ].
  - rewrite (round_zero q Z0). lra.
  - rewrite (round_nz q NZ). assert (P := pow2_pos (ulp_exp q)).
    apply Qmult_le_0_compat; [|lra].
    change 0 with (inject_Z 0). rewrite <- Zle_Qle. apply rne_ge_Z.
    change (inject_Z 0) with 0. apply Qle_shift_div_l; lra.
Qed.

(** Scaling to the grid: [q / 2^e] *)
Lemma scaled_le q e k : q <= pow2 (e + k) -> q / pow2 e <= pow2 k.
Proof.
  intros H. assert (P := pow2_pos e). apply Qle_shift_div_r; [exact P|].
  rewrite pow2_add in H. lra.
Qed.

Lemma scaled_ge q e k : pow2 (e + k) <= q -> pow2 k <= q / pow2 e.
Proof.
  intros H. assert (P := pow2_pos e). apply Qle_shift_div_l; [exact P|].
  rewrite pow2_add in H. lra.
Qed.

Lemma round_mono_pos x y : 0 < x -> x <= y -> round x <= round y.
Proof.
  intros Px L.
  assert (NZx : ~ x == 0) by lra. assert (NZy : ~ y == 0) by lra.
  rewrite (round_nz x NZx), (round_nz y NZy).
  destruct (ilog2_spec x NZx) as [X1 X2]. destruct (ilog2_spec y NZy) as [Y1 Y2].
  rewrite Qabs_pos in X1, X2, Y1, Y2 by lra.
  assert (Lm : (ilog2 x <= ilog2 y)%Z).
  { apply ilog2_mono; [exact NZx|]. rewrite 2 Qabs_pos by lra. exact L. }
  assert (Px' := pow2_pos (ulp_exp x)). assert (Py' := pow2_pos (ulp_exp y)).
  destruct (Z.eq_dec (ulp_exp x) (ulp_exp y)) as [Ee | Ne].
  - rewrite Ee. apply Qmult_le_compat_r; [|lra].
    rewrite <- Zle_Qle. apply rne_mono.
    apply Qmult_le_compat_r; [exact L|]. apply Qlt_le_weak, Qinv_lt_0_compat. exact Py'.
  - assert (Hy : ulp_exp y = (ilog2 y - 52)%Z) by (unfold ulp_exp in *; lia).
    assert (Hlt : (ulp_exp x < ulp_exp y)%Z) by (unfold ulp_exp in *; lia).
    assert (Hx : (ilog2 x + 1 <= ilog2 y)%Z) by (unfold ulp_exp in *; lia).
    apply Qle_trans with (pow2 (ilog2 y)).
    + (* round x <= 2^(ilog2 y) *)
      set (k := (ilog2 y - ulp_exp x)%Z).
      assert (Hk : (0 <= k)%Z) by (subst k; lia).
      assert (Ek : pow2 (ilog2 y) == inject_Z (2 ^ k) * pow2 (ulp_exp x)).
      { rewrite <- (pow2_Z k Hk), <- pow2_add. subst k.
        replace (ilog2 y - ulp_exp x + ulp_exp x)%Z with (ilog2 y) by lia. reflexivity. }
      rewrite Ek. apply Qmult_le_compat_r; [|lra].
      rewrite <- Zle_Qle. apply rne_le_Z. rewrite <- (pow2_Z k Hk).
      apply scaled_le. subst k.
      replace (ulp_exp x + (ilog2 y - ulp_exp x))%Z with (ilog2 y) by lia.
      assert (H := pow2_le (ilog2 x + 1) (ilog2 y) Hx). lra.
    + (* 2^(ilog2 y) <= round y *)
      assert (Ek : pow2 (ilog2 y) == inject_Z (2 ^ 52) * pow2 (ulp_exp y)).
      { rewrite <- (pow2_Z 52) by lia. rewrite <- pow2_add, Hy.
        replace (52 + (ilog2 y - 52))%Z with (ilog2 y) by lia. reflexivity. }
      rewrite Ek. apply Qmult_le_compat_r; [|lra].
      rewrite <- Zle_Qle. apply rne_ge_Z. rewrite <- (pow2_Z 52) by lia.
      apply scaled_ge. rewrite Hy.
      replace (ilog2 y - 52 + 52)%Z with (ilog2 y) by lia. exact Y1.
Qed.

Lemma round_mono x y : x <= y -> round x <= round y.
Proof.
  intros L. destruct (Qlt_le_dec 0 x) as [Px | Nx].
  - apply round_mono_pos; assumption.
  - destruct (Qlt_le_dec y 0) as [Ny | Py].
    + assert (H := round_mono_pos (- y) (- x) ltac:(lra) ltac:(lra)).
      rewrite 2 round_opp in H. lra.
    + assert (H1 := round_nonneg y Py).
      assert (H2 := round_nonneg (- x) ltac:(lra)). rewrite round_opp in H2. lra.
Qed.
End Round.

(** * Facts: exact values, relative error, truncation *)

Section Exact.
Local Open Scope Q_scope.

Lemma Qabs_mult_Z m p : 0 < p -> Qabs (inject_Z m * p) == inject_Z (Z.abs m) * p.
Proof.
  intros Hp. rewrite Qabs_Qmult, (Qabs_pos p) by lra.
  apply Qmult_comp; [|reflexivity].
  unfold Qabs, inject_Z. simpl. reflexivity.
Qed.

(** A value [m * 2^e] with a 53-bit [m] on or above the subnormal grid is
    a float: rounding leaves it unchanged. *)
Lemma round_exact q m e :
  q == inject_Z m * pow2 e -> (Z.abs m < 2 ^ 53)%Z -> (-1074 <= e)%Z -> round q == q.
Proof.
  intros Eq Hm He. destruct (Qeq_dec q 0) as [Z0 | NZ].
  - rewrite (round_zero q Z0). lra.
  - rewrite (round_nz q NZ).
    destruct (ilog2_spec q NZ) as [L1 _].
    assert (Pe := pow2_pos e).
    assert (Ea : Qabs q == inject_Z (Z.abs m) * pow2 e).
    { rewrite (Qabs_wd _ _ Eq). apply Qabs_mult_Z. exact Pe. }
    assert (Hl : (ilog2 q < 53 + e)%Z).
    { destruct (Z_lt_ge_dec (ilog2 q) (53 + e)) as [G | G]; [exact G | exfalso].
      assert (H := pow2_le (53 + e) (ilog2 q) ltac:(lia)).
      rewrite pow2_add, (pow2_Z 53) in H by lia.
      assert (inject_Z (Z.abs m) < inject_Z (2 ^ 53)) by (rewrite <- Zlt_Qlt; exact Hm).
      assert (inject_Z (Z.abs m) * pow2 e < inject_Z (2 ^ 53) * pow2 e).
      { apply Qmult_lt_compat_r; assumption. }
      lra. }
    set (E := ulp_exp q).
    assert (HE : (E <= e)%Z) by (subst E; unfold ulp_exp; lia).
    assert (PE := pow2_pos E).
    assert (Ek : pow2 e == inject_Z (2 ^ (e - E)) * pow2 E).
    { rewrite <- pow2_Z by lia. rewrite <- pow2_add.
      replace (e - E + E)%Z with e by lia. reflexivity. }
    assert (Es : q / pow2 E == inject_Z (m * 2 ^ (e - E))).
    { rewrite inject_Z_mult, Eq, Ek. field. lra. }
    rewrite (rne_comp _ _ Es), rne_Z, inject_Z_mult, Eq, Ek. ring.
Qed.

Lemma round_Z n : (Z.abs n < 2 ^ 53)%Z -> round (inject_Z n) == inject_Z n.
Proof.
  intros H. apply (round_exact _ n 0); [|exact H|lia].
  unfold pow2. simpl. ring.
Qed.

Lemma round_pow2 e : (-1074 <= e)%Z -> round (pow2 e) == pow2 e.
Proof.
  intros H. apply (round_exact _ 1 e); [|reflexivity|exact H].
  change (inject_Z 1) with 1. ring.
Qed.

(** The relative error of rounding in the normal range is at most the
    unit roundoff [2^-53]. *)
Lemma round_rel_err q :
  0 < q -> pow2 (-1022) <= q ->
  q * (1 - pow2 (-53)) <= round q /\ round q <= q * (1 + pow2 (-53)).
Proof.
  intros Pq Hn. assert (NZ : ~ q == 0) by lra.
  destruct (ilog2_spec q NZ) as [L1 L2]. rewrite Qabs_pos in L1, L2 by lra.
  assert (HL : (-1022 <= ilog2 q)%Z).
  { destruct (Z_le_gt_dec (-1022) (ilog2 q)) as [G | G]; [exact G | exfalso].
    assert (H := pow2_le (ilog2 q + 1) (-1022) ltac:(lia)). lra. }
  rewrite (round_nz q NZ).
  assert (HE : ulp_exp q = (ilog2 q - 52)%Z) by (unfold ulp_exp; lia).
  rewrite HE. set (E := (ilog2 q - 52)%Z).
  assert (PE := pow2_pos E).
  destruct (rne_bounds (q / pow2 E)) as [B1 B2].
  set (r := inject_Z (rne (q / pow2 E))) in *.
  assert (Eq : q == q / pow2 E * pow2 E) by (field; lra).
  assert (Hu : pow2 E * (1 # 2) <= q * pow2 (-53)).
  { assert (H1 : pow2 (ilog2 q) * pow2 (-53) <= q * pow2 (-53)).
    { apply Qmult_le_compat_r; [exact L1|]. apply Qlt_le_weak, pow2_pos. }
    assert (H2 : pow2 (ilog2 q) * pow2 (-53) == pow2 E * (1 # 2)).
    { rewrite <- pow2_add. subst E.
      replace (ilog2 q + -53)%Z with ((ilog2 q - 52) + - 1)%Z by lia.
      rewrite pow2_add. reflexivity. }
    lra. }
  assert (M1 : (r - (1 # 2)) * pow2 E <= q / pow2 E * pow2 E).
  { apply Qmult_le_compat_r; lra. }
  assert (M2 : q / pow2 E * pow2 E <= (r + (1 # 2)) * pow2 E).
  { apply Qmult_le_compat_r; lra. }
  split; lra.
Qed.
End Exact.

Section Trunc.
Local Open Scope Q_scope.

Lemma trunc_nonneg x : 0 <= x -> trunc x = Qfloor x.
Proof.
  intros H. unfold trunc, Qfloor. destruct x as [n d]. simpl.
  apply Z.quot_div_nonneg; [|lia].
  unfold Qle in H. simpl in H. lia.
Qed.

Lemma trunc_opp x : trunc (- x) = (- trunc x)%Z.
Proof. unfold trunc. destruct x as [n d]. simpl. apply Z.quot_opp_l. lia. Qed.

Lemma Qfloor_unique x k : inject_Z k <= x -> x < inject_Z (k + 1) -> Qfloor x = k.
Proof.
  intros H1 H2. assert (F1 := Qfloor_le x). assert (F2 := Qlt_floor x).
  assert (A : inject_Z k < inject_Z (Qfloor x + 1)) by (eapply Qle_lt_trans; eassumption).
  assert (B : inject_Z (Qfloor x) < inject_Z (k + 1)) by (eapply Qle_lt_trans; eassumption).
  rewrite <- Zlt_Qlt in A, B. lia.
Qed.

Lemma trunc_comp x y : x == y -> trunc x = trunc y.
Proof.
  intros E. destruct (Qlt_le_dec x 0) as [N | P].
  - assert (Hx : trunc x = (- Qfloor (- x))%Z).
    { rewrite <- trunc_nonneg by lra. rewrite trunc_opp. lia. }
    assert (Hy : trunc y = (- Qfloor (- y))%Z).
    { rewrite <- trunc_nonneg by lra. rewrite trunc_opp. lia. }
    rewrite Hx, Hy. f_equal. apply Qfloor_comp. rewrite E. reflexivity.
  - rewrite 2 trunc_nonneg by lra. apply Qfloor_comp. exact E.
Qed.
End Trunc.

(** * Facts: the idle time against the thresholds 5 and 2 *)

Section Idle.
Local Open Scope Q_scope.

Lemma div_const_mono (x y : Q) (c : Z) : (0 < c)%Z -> x <= y -> x / inject_Z c <= y / inject_Z c.
Proof.
  intros Hc H. apply Qmult_le_compat_r; [exact H|].
  apply Qlt_le_weak, Qinv_lt_0_compat.
  change 0 with (inject_Z 0). rewrite <- Zlt_Qlt. exact Hc.
Qed.

Lemma idle_float_mono d1 d2 : (d1 <= d2)%Z -> idle_float d1 <= idle_float d2.
Proof.
  intros H. unfold idle_float, float_truediv.
  apply round_mono, div_const_mono; [lia|].
  apply round_mono, div_const_mono; [lia|].
  rewrite <- Zle_Qle. exact H.
Qed.

Lemma idle_float_gt5 d : gt_int (idle_float d) 5 = (300000 <? d)%Z.
Proof.
  unfold gt_int. destruct (Z.ltb_spec 300000 d) as [H | H].
  - assert (C : 5 < idle_float 300001) by (vm_compute; reflexivity).
    assert (M := idle_float_mono 300001 d ltac:(lia)).
    destruct (Qle_bool (idle_float d) (inject_Z 5)) eqn:E; [|reflexivity].
    apply Qle_bool_iff in E. change (inject_Z 5) with 5 in E. lra.
  - assert (C : idle_float 300000 <= 5) by (vm_compute; discriminate).
    assert (M := idle_float_mono d 300000 ltac:(lia)).
    assert (E : Qle_bool (idle_float d) (inject_Z 5) = true).
    { apply Qle_bool_iff. change (inject_Z 5) with 5. lra. }
    rewrite E. reflexivity.
Qed.

Lemma idle_float_lt2 d : lt_int (idle_float d) 2 = (d <? 120000)%Z.
Proof.
  unfold lt_int. destruct (Z.ltb_spec d 120000) as [H | H].
  - assert (C : idle_float 119999 < 2) by (vm_compute; reflexivity).
    assert (M := idle_float_mono d 119999 ltac:(lia)).
    destruct (Qle_bool (inject_Z 2) (idle_float d)) eqn:E; [|reflexivity].
    apply Qle_bool_iff in E. change (inject_Z 2) with 2 in E. lra.
  - assert (C : 2 <= idle_float 120000) by (vm_compute; discriminate).
    assert (M := idle_float_mono 120000 d ltac:(lia)).
    assert (E : Qle_bool (inject_Z 2) (idle_float d) = true).
    { apply Qle_bool_iff. change (inject_Z 2) with 2. lra. }
    rewrite E. reflexivity.
Qed.

Lemma truediv_1000_finite d :
  (Z.abs d < 2 ^ 1024)%Z -> finite (round (inject_Z d / inject_Z 1000)) = true.
Proof.
  intros H. unfold finite.
  assert (U : round (inject_Z (2 ^ 1024) / inject_Z 1000) < pow2 1024) by (vm_compute; reflexivity).
  assert (L : - pow2 1024 < round (inject_Z (- 2 ^ 1024) / inject_Z 1000)) by (vm_compute; reflexivity).
  assert (M1 : round (inject_Z d / inject_Z 1000) <= round (inject_Z (2 ^ 1024) / inject_Z 1000)).
  { apply round_mono, div_const_mono; [lia|]. rewrite <- Zle_Qle. lia. }
  assert (M2 : round (inject_Z (- 2 ^ 1024) / inject_Z 1000) <= round (inject_Z d / inject_Z 1000)).
  { apply round_mono, div_const_mono; [lia|]. rewrite <- Zle_Qle. lia. }
  destruct (Qle_bool _ _) eqn:E; [|reflexivity].
  apply Qle_bool_iff in E. exfalso. revert E.
  apply Qabs_case; intros; lra.
Qed.
End Idle.

(** * Facts: the truncated idle time *)

Section IdleTrunc.
Local Open Scope Q_scope.

Lemma pow2_m53 : pow2 (-53) == 1 # 9007199254740992.
Proof. vm_compute. reflexivity. Qed.

Lemma pow2_m1022_small : pow2 (-1022) <= 1 # 1000000.
Proof. vm_compute. discriminate. Qed.

Lemma idle_float_opp d : idle_float (- d) == - idle_float d.
Proof.
  unfold idle_float, float_truediv.
  assert (E1 : inject_Z (- d) / inject_Z 1000 == - (inject_Z d / inject_Z 1000)).
  { rewrite inject_Z_opp. field. }
  rewrite <- round_opp. apply round_comp.
  rewrite (round_comp _ _ E1), round_opp. field.
Qed.

Lemma idle_float_bounds d k :
  (0 <= k)%Z -> (60000 * k <= d)%Z -> (d < 60000 * (k + 1))%Z -> (d < 2 ^ 51)%Z ->
  inject_Z k <= idle_float d /\ idle_float d < inject_Z (k + 1).
Proof.
  intros Hk H1 H2 Hd. unfold idle_float, float_truediv. split.
  - assert (A : inject_Z (60 * k) <= round (inject_Z d / inject_Z 1000)).
    { rewrite <- (round_Z (60 * k)) by lia.
      apply round_mono. apply Qle_shift_div_l; [reflexivity|].
      rewrite <- inject_Z_mult, <- Zle_Qle. lia. }
    rewrite <- (round_Z k) by lia.
    apply round_mono. apply Qle_shift_div_l; [reflexivity|].
    rewrite <- inject_Z_mult. rewrite Z.mul_comm. exact A.
  - destruct (Z.eq_dec d 0%Z) as [-> | Nd].
    + assert (E : idle_float 0 == 0) by (vm_compute; reflexivity).
      unfold idle_float, float_truediv in E. rewrite E.
      change 0 with (inject_Z 0). rewrite <- Zlt_Qlt. lia.
    + assert (Pd : 1 <= inject_Z d).
      { change 1 with (inject_Z 1). rewrite <- Zle_Qle. lia. }
      assert (Ud : inject_Z d <= inject_Z (60000 * k + 59999)) by (rewrite <- Zle_Qle; lia).
      assert (Bd : inject_Z d <= inject_Z (2 ^ 51)) by (rewrite <- Zle_Qle; lia).
      rewrite inject_Z_plus, inject_Z_mult in Ud.
      change (inject_Z 60000) with 60000 in Ud. change (inject_Z 59999) with 59999 in Ud.
      change (inject_Z (2 ^ 51)) with 2251799813685248 in Bd.
      rewrite inject_Z_plus. change (inject_Z 1) with 1.
      assert (S := pow2_m1022_small). assert (U := pow2_m53).
      set (q := inject_Z d / inject_Z 1000).
      assert (Eq : q == inject_Z d * (1 # 1000)) by (subst q; reflexivity).
      destruct (round_rel_err q) as [R1 R2]; [lra | lra |].
      rewrite U in R1, R2.
      set (x := round q) in *.
      set (q' := x / inject_Z 60).
      assert (Eq' : q' == x * (1 # 60)) by (subst q'; reflexivity).
      destruct (round_rel_err q') as [R1' R2']; [lra | lra |].
      rewrite U in R1', R2'.
      set (y := round q') in *.
      lra.
Qed.

Lemma idle_float_trunc d :
  (Z.abs d < 2 ^ 51)%Z -> trunc (idle_float d) = Z.quot d 60000.
Proof.
  intros H.
  assert (P : forall p, (0 <= p < 2 ^ 51)%Z -> trunc (idle_float p) = (p / 60000)%Z).
  { intros p Hp.
    assert (K : (0 <= p / 60000)%Z) by (apply Z.div_pos; lia).
    assert (D := Z.div_mod p 60000 ltac:(lia)).
    assert (R := Z.mod_pos_bound p 60000 ltac:(lia)).
    destruct (idle_float_bounds p (p / 60000) K) as [B1 B2]; [lia | lia | lia |].
    rewrite trunc_nonneg.
    - apply Qfloor_unique; assumption.
    - apply Qle_trans with (2 := B1). change 0 with (inject_Z 0).
      rewrite <- Zle_Qle. exact K. }
  destruct (Z_le_gt_dec 0%Z d) as [Pd | Nd].
  - rewrite P by lia. symmetry. apply Z.quot_div_nonneg; lia.
  - rewrite <- (Z.opp_involutive d) at 1.
    rewrite (trunc_comp _ _ (idle_float_opp (- d))), trunc_opp, P by lia.
    rewrite <- (Z.quot_div_nonneg (- d) 60000) by lia.
    rewrite Z.quot_opp_l by lia. lia.
Qed.
End IdleTrunc.

(** * Facts: the token count with one decimal *)

(** The conversion of an int to text succeeds up to [max_str_digits]
    decimal digits, which covers every int in the range of floats. *)
Lemma int_str_ok n : Z.abs n < 10 ^ max_str_digits -> int_str n = Ok (str_int n).
Proof.
  intros H. unfold int_str.
  destruct (Z.ltb_spec (Z.abs n) (10 ^ max_str_digits)) as [_ | G]; [reflexivity|].
  exfalso. apply (Z.lt_irrefl (Z.abs n)). eapply Z.lt_le_trans; eassumption.
Qed.

Lemma int_str_raise n : 10 ^ max_str_digits <= Z.abs n -> int_str n = Raise ValueError.
Proof.
  intros H. unfold int_str.
  destruct (Z.ltb_spec (Z.abs n) (10 ^ max_str_digits)) as [G | _]; [|reflexivity].
  exfalso. apply (Z.lt_irrefl (Z.abs n)). eapply Z.lt_le_trans; eassumption.
Qed.

Lemma float_range_digits n : float_range n -> Z.abs n < 10 ^ max_str_digits.
Proof.
  unfold float_range. intros H.
  apply Z.lt_trans with (2 ^ 1024); [exact H|]. vm_compute. reflexivity.
Qed.

Lemma small_digits n : Z.abs n < 1000 -> Z.abs n < 10 ^ max_str_digits.
Proof.
  intros H. apply Z.lt_trans with 1000; [exact H|]. vm_compute. reflexivity.
Qed.

Lemma div_abs_le a b : 0 < b -> Z.abs (a / b) <= Z.abs a.
Proof.
  intros Hb.
  assert (E := Z.div_mod a b ltac:(lia)).
  assert (R := Z.mod_pos_bound a b Hb).
  destruct (Z_lt_ge_dec a 0) as [N | P].
  - assert (a / b < 0) by (apply Z.div_lt_upper_bound; lia).
    assert (a <= a / b) by nia. lia.
  - assert (0 <= a / b) by (apply Z.div_pos; lia).
    assert (a / b <= a) by nia. lia.
Qed.

Lemma int_str_div n b :
  0 < b -> Z.abs n < 10 ^ max_str_digits -> int_str (n / b) = Ok (str_int (n / b)).
Proof.
  intros Hb H. apply int_str_ok.
  eapply Z.le_lt_trans; [apply div_abs_le; exact Hb | exact H].
Qed.

Lemma int_str_mod60 n : int_str (n mod 60) = Ok (str_int (n mod 60)).
Proof.
  apply int_str_ok, small_digits.
  assert (R := Z.mod_pos_bound n 60 ltac:(lia)). lia.
Qed.

Section Tokens.
Local Open Scope Q_scope.

Lemma truediv_1000_nonneg n : (0 <= n)%Z -> 0 <= round (inject_Z n / inject_Z 1000).
Proof.
  intros H. apply round_nonneg. apply Qle_shift_div_l; [reflexivity|].
  change (0 * inject_Z 1000) with (inject_Z 0). rewrite <- Zle_Qle. exact H.
Qed.

Lemma format_tokens_small n : (1 <= n < 1000)%Z -> format_tokens (VInt n) = Ok (str_int n).
Proof.
  intros H. unfold format_tokens, truthy, ge_int, as_int.
  destruct (Z.eqb_spec n 0) as [E | _]; [lia|]. simpl.
  destruct (Z.leb_spec 1000 n) as [G | _]; [lia|].
  apply int_str_ok, small_digits. lia.
Qed.

Lemma format_tokens_large n :
  (1000 <= n)%Z -> float_range n ->
  format_tokens (VInt n) = Ok (Spec.one_decimal (tenths n) +:+ "k")%string.
Proof.
  intros H R. unfold format_tokens, truthy, ge_int, truediv, as_int, int_truediv.
  destruct (Z.eqb_spec n 0) as [E | _]; [lia|]. simpl.
  destruct (Z.leb_spec 1000 n) as [_ | G]; [|lia].
  rewrite (truediv_1000_finite n R).
  unfold format_1f.
  assert (P := truediv_1000_nonneg n ltac:(lia)).
  apply Qle_bool_iff in P. rewrite P. reflexivity.
Qed.

Lemma tenths_nearest n :
  (1000 <= n < 2 ^ 53)%Z -> (100 * tenths n - 50 <= n <= 100 * tenths n + 50)%Z.
Proof.
  intros H. unfold tenths.
  set (q := inject_Z n / inject_Z 1000).
  assert (Ln : 1000 <= inject_Z n).
  { change 1000 with (inject_Z 1000). rewrite <- Zle_Qle. lia. }
  assert (Un : inject_Z n < 9007199254740992).
  { change 9007199254740992 with (inject_Z (2 ^ 53)). rewrite <- Zlt_Qlt. lia. }
  assert (Eq : q == inject_Z n * (1 # 1000)) by (subst q; reflexivity).
  assert (S := pow2_m1022_small). assert (U := pow2_m53).
  destruct (round_rel_err q) as [R1 R2]; [lra | lra |].
  rewrite U in R1, R2.
  set (x := round q) in *.
  assert (Px : 0 <= x) by lra.
  assert (Ex : Qabs x * inject_Z 10 == x * 10).
  { rewrite Qabs_pos by exact Px. reflexivity. }
  rewrite (rne_comp _ _ Ex).
  destruct (rne_bounds (x * 10)) as [B1 B2].
  set (t := rne (x * 10)) in *.
  assert (A1 : inject_Z (100 * t - 50 - n) < 1).
  { unfold Z.sub. rewrite 2 inject_Z_plus, inject_Z_mult, 2 inject_Z_opp.
    change (inject_Z 100) with 100. change (inject_Z 50) with 50. lra. }
  assert (A2 : inject_Z (n - 100 * t - 50) < 1).
  { unfold Z.sub. rewrite 2 inject_Z_plus, 2 inject_Z_opp, inject_Z_mult.
    change (inject_Z 100) with 100. change (inject_Z 50) with 50. lra. }
  change 1 with (inject_Z 1) in A1, A2. rewrite <- Zlt_Qlt in A1, A2. lia.
Qed.
End Tokens.

(** * Facts: agreement with the library description of IEEE-754 *)

(** On the values around the thresholds of the program, [round] gives what
    the division of [SpecFloat] gives: for [d / 1000 / 60] around 1, 2 and
    5 minutes, at a present-day timestamp and for negative differences,
    and for [n / 1000] at the counts whose tenths are ties in decimal. *)
Lemma idle_float_ieee :
  forallb (fun d => agrees (ieee_div_int (ieee_div_int (spec_float_of_int d) 1000) 60)
                           (idle_float d))
    [1; 59999; 60000; 119999; 120000; 120001; 299999; 300000; 300001; 330000;
     1700000000000; -1; -60000; -119999] = true.
Proof. vm_compute. reflexivity. Qed.

Lemma truediv_1000_ieee :
  forallb (fun n => agrees (ieee_div_int (spec_float_of_int n) 1000)
                           (round (inject_Z n / inject_Z 1000)))
    [1000; 1050; 1150; 1250; 1350; 1450; 1500; 2500; 12000; 999999; 123456789] = true.
Proof. vm_compute. reflexivity. Qed.

(** * The classifier and the rule of the specification *)

Section Classifier.

Lemma field_int_get (session : dict) key n :
  Spec.field_int session key = Some n -> get session key (VInt 0) = VInt n.
Proof.
  unfold Spec.field_int, get. destruct (session !! key) as [[| |m|]|]; simpl; congruence.
Qed.

Lemma idle_minutes_int now updated :
  float_range (now - updated) ->
  idle_minutes now (VInt updated) = Ok (idle_float (now - updated)).
Proof.
  intros R. unfold idle_minutes, int_sub, as_int, int_truediv.
  rewrite (truediv_1000_finite _ R). reflexivity.
Qed.

Lemma real_gt5 now updated :
  Spec.Qltb 5 (Spec.idle_minutes now updated) = (300000 <? now - updated).
Proof.
  unfold Spec.Qltb, Spec.idle_minutes. set (d := now - updated).
  destruct (Z.ltb_spec 300000 d) as [H | H].
  - destruct (Qle_bool _ _) eqn:E; [|reflexivity].
    apply Qle_bool_iff in E.
    assert (300000 < inject_Z d)%Q.
    { change 300000%Q with (inject_Z 300000). rewrite <- Zlt_Qlt. exact H. }
    change (inject_Z d / inject_Z 60000)%Q with (inject_Z d * (1 # 60000))%Q in E. exfalso. lra.
  - assert (E : Qle_bool (inject_Z d / inject_Z 60000) 5 = true).
    { apply Qle_bool_iff.
      assert (inject_Z d <= 300000)%Q.
      { change 300000%Q with (inject_Z 300000). rewrite <- Zle_Qle. exact H. }
      change (inject_Z d / inject_Z 60000)%Q with (inject_Z d * (1 # 60000))%Q. lra. }
    rewrite E. reflexivity.
Qed.

Lemma real_lt2 now updated :
  Spec.Qltb (Spec.idle_minutes now updated) 2 = (now - updated <? 120000).
Proof.
  unfold Spec.Qltb, Spec.idle_minutes. set (d := now - updated).
  destruct (Z.ltb_spec d 120000) as [H | H].
  - destruct (Qle_bool _ _) eqn:E; [|reflexivity].
    apply Qle_bool_iff in E.
    assert (inject_Z d < 120000)%Q.
    { change 120000%Q with (inject_Z 120000). rewrite <- Zlt_Qlt. exact H. }
    change (inject_Z d / inject_Z 60000)%Q with (inject_Z d * (1 # 60000))%Q in E. exfalso. lra.
  - assert (E : Qle_bool 2 (inject_Z d / inject_Z 60000) = true).
    { apply Qle_bool_iff.
      assert (120000 <= inject_Z d)%Q.
      { change 120000%Q with (inject_Z 120000). rewrite <- Zle_Qle. exact H. }
      change (inject_Z d / inject_Z 60000)%Q with (inject_Z d * (1 # 60000))%Q. lra. }
    rewrite E. reflexivity.
Qed.

(** The classifier on a record with int or absent numeric fields: the
    rule of the specification at the instant it reads, and one tick. *)
Lemma get_status_rule (session : dict) (w : world) tokens updated :
  Spec.field_int session "totalTokens" = Some tokens ->
  Spec.field_int session "updatedAt" = Some updated ->
  float_range (clock w (ticks w) - updated) ->
  exists icon color,
    get_status session w =
    Ok ((Spec.status tokens updated (clock w (ticks w)), icon, color), tick w).
Proof.
  intros Ht Hu R. unfold get_status.
  rewrite (field_int_get _ _ _ Ht), (field_int_get _ _ _ Hu).
  unfold bind at 1. unfold now_ms. unfold bind at 1. unfold lift at 1.
  rewrite (idle_minutes_int _ _ R).
  unfold Spec.status. rewrite real_gt5, real_lt2, idle_float_gt5, idle_float_lt2.
  unfold eq_int, as_int. fold (tick w).
  destruct ((tokens =? 0) && (300000 <? clock w (ticks w) - updated)).
  { eexists _, _. reflexivity. }
  destruct (clock w (ticks w) - updated <? 120000).
  { eexists _, _. reflexivity. }
  unfold bind, lift, Py.gt_int, as_int.
  destruct (0 <? tokens); eexists _, _; reflexivity.
Qed.

Lemma status_in_statuses tokens updated now :
  Spec.status tokens updated now ∈ Spec.statuses.
Proof.
  unfold Spec.status, Spec.statuses.
  repeat match goal with |- context [if ?b then _ else _] => destruct b end;
    set_solver.
Qed.

(** The four cases of the rule on sample records, at the instant
    [now0]: no tokens and ten minutes idle, no tokens and one minute, 500
    tokens and three minutes, no tokens and three minutes; and a record
    with no field at all. *)
Lemma get_status_examples :
  map (fun d => outcome (get_status d (Examples.world_of [])))
      [Examples.rec_stuck; Examples.rec_active; Examples.rec_completed;
       Examples.rec_idle; ∅] =
  [Ok ("stuck", "⚠️", "#f85149"); Ok ("active", "🟢", "#3fb950");
   Ok ("completed", "✅", "#58a6ff"); Ok ("idle", "⚪", "#8b949e");
   Ok ("stuck", "⚠️", "#f85149")]%string.
Proof. vm_compute. reflexivity. Qed.

End Classifier.

(** * One iteration of the loop *)

Section Loop.

(** [get_status] reads the clock once and decides. *)
Lemma get_status_classify (session : dict) (w : world) :
  get_status session w =
  match classify session (clock w (ticks w)) with
  | Ok r => Ok (r, tick w)
  | Raise e => Raise e
  end.
Proof.
  unfold get_status, classify, bind, now_ms, lift, ret. fold (tick w).
  destruct (idle_minutes _ _) as [x | e]; [|reflexivity].
  destruct (eq_int _ 0 && gt_int x 5); [reflexivity|].
  destruct (lt_int x 2); [reflexivity|].
  destruct (Py.gt_int _ 0) as [[|] | e]; reflexivity.
Qed.

Lemma classify_status (session : dict) now status icon color :
  classify session now = Ok (status, icon, color) -> status ∈ Spec.statuses.
Proof.
  unfold classify, Spec.statuses.
  destruct (idle_minutes _ _) as [x | e]; [|discriminate].
  destruct (eq_int _ 0 && gt_int x 5); [intros [= <- <- <-]; set_solver|].
  destruct (lt_int x 2); [intros [= <- <- <-]; set_solver|].
  destruct (Py.gt_int _ 0) as [[|] | e]; [| |discriminate];
    intros [= <- <- <-]; set_solver.
Qed.

Lemma classify_rule (session : dict) now tokens updated :
  Spec.field_int session "totalTokens" = Some tokens ->
  Spec.field_int session "updatedAt" = Some updated ->
  float_range (now - updated) ->
  exists icon color, classify session now = Ok (Spec.status tokens updated now, icon, color).
Proof.
  intros Ht Hu R.
  set (w := World (fun _ => ∅) 0%nat (fun _ => now) 0%nat).
  destruct (get_status_rule session w tokens updated Ht Hu R) as (icon & color & E).
  rewrite get_status_classify in E. simpl in E.
  destruct (classify session now) as [r | e]; [|discriminate].
  exists icon, color. congruence.
Qed.

Lemma annotate_lookup_other r (session : dict) key :
  key ∉ annotation_keys -> annotate r session !! key = session !! key.
Proof.
  intros H. destruct r as [[status icon] color]. unfold annotate, annotation_keys in *.
  apply not_elem_of_cons in H as [H1 H]. apply not_elem_of_cons in H as [H2 H].
  apply not_elem_of_cons in H as [H3 _].
  rewrite !lookup_insert_ne by congruence. reflexivity.
Qed.

Lemma annotate_status status icon color (session : dict) :
  annotate (status, icon, color) session !! "_status"%string = Some (VStr status).
Proof.
  unfold annotate. rewrite !lookup_insert_ne by discriminate. apply lookup_insert_eq.
Qed.

Lemma annotate_field_int r (session : dict) key :
  key ∉ annotation_keys ->
  Spec.field_int (annotate r session) key = Spec.field_int session key.
Proof. intros H. unfold Spec.field_int. rewrite annotate_lookup_other by exact H. reflexivity. Qed.

(** One iteration of the loop. *)
Lemma categorize_from_raise s rest A C S w e :
  classify (heap w s) (clock w (ticks w)) = Raise e ->
  categorize_from (s :: rest) A C S w = Raise e.
Proof.
  intros E. simpl. unfold bind at 1. unfold deref. unfold bind at 1.
  rewrite get_status_classify, E. reflexivity.
Qed.

Lemma categorize_from_step s rest A C S w status icon color :
  classify (heap w s) (clock w (ticks w)) = Ok (status, icon, color) ->
  exists w2,
    (forall l, heap w2 l =
               if decide (l = s) then annotate (status, icon, color) (heap w l) else heap w l) /\
    next w2 = next w /\ clock w2 = clock w /\ ticks w2 = Datatypes.S (ticks w) /\
    categorize_from (s :: rest) A C S w =
    categorize_from rest (put "active" status s A) (put "completed" status s C)
                    (put "stuck" status s S) w2.
Proof.
  intros E. pose proof (classify_status _ _ _ _ _ E) as Hs.
  simpl. unfold bind at 1. unfold deref. unfold bind at 1.
  rewrite get_status_classify, E.
  unfold bind, setitem. simpl.
  eexists (World _ _ _ _). split; [|split; [|split; [|split]]].
  5: { unfold put.
       destruct (decide (status = "active"%string)) as [-> | N1].
       { simpl. reflexivity. }
       destruct (decide (status = "completed"%string)) as [-> | N2].
       { simpl. reflexivity. }
       destruct (decide (status = "stuck"%string)) as [-> | N3]; reflexivity. }
  - intros l. simpl. destruct (decide (l = s)); reflexivity.
  - reflexivity.
  - reflexivity.
  - reflexivity.
Qed.

End Loop.

(** * The loop: frame, buckets, absence of exceptions *)

Lemma totalTokens_not_annotation : "totalTokens"%string ∉ annotation_keys.
Proof. unfold annotation_keys. rewrite !not_elem_of_cons. repeat split; try discriminate. apply not_elem_of_nil. Qed.

Lemma updatedAt_not_annotation : "updatedAt"%string ∉ annotation_keys.
Proof. unfold annotation_keys. rewrite !not_elem_of_cons. repeat split; try discriminate. apply not_elem_of_nil. Qed.

Section LoopInvariants.

(** What the loop leaves alone. *)
Lemma categorize_from_frame ss : forall A C S w b w',
  categorize_from ss A C S w = Ok (b, w') ->
  clock w' = clock w /\ next w' = next w /\
  ticks w' = (ticks w + length ss)%nat /\
  (forall l, l ∉ ss -> heap w' l = heap w l) /\
  (forall l key, key ∉ annotation_keys -> heap w' l !! key = heap w l !! key).
Proof.
  induction ss as [| s rest IH]; intros A C S w b w' E.
  - simpl in E. injection E as _ <-. repeat split; auto with lia.
  - destruct (classify (heap w s) (clock w (ticks w))) as [[[status icon] color] | e] eqn:Ec.
    + destruct (categorize_from_step s rest A C S w _ _ _ Ec) as (w2 & Hh & Hn & Hc & Ht & Eq).
      rewrite Eq in E. destruct (IH _ _ _ _ _ _ E) as (Ic & In & It & Ih & Ik).
      repeat split.
      * congruence.
      * congruence.
      * rewrite It, Ht. simpl. lia.
      * intros l Hl. apply not_elem_of_cons in Hl as [Hne Hl].
        rewrite (Ih l Hl), Hh. destruct (decide (l = s)); [contradiction | reflexivity].
      * intros l key Hk. rewrite (Ik l key Hk), Hh.
        destruct (decide (l = s)); [apply annotate_lookup_other; exact Hk | reflexivity].
    + rewrite (categorize_from_raise s rest A C S w e Ec) in E. discriminate.
Qed.

Lemma put_same name s B : put name name s B = B ++ [s].
Proof. unfold put. destruct (decide (name = name)); [reflexivity | contradiction]. Qed.

Lemma put_other name status s B : status <> name -> put name status s B = B.
Proof. intros H. unfold put. destruct (decide (status = name)); [contradiction | reflexivity]. Qed.

Lemma filter_tagged_head w name status s rest :
  tagged w status s ->
  filter (tagged w name) (s :: rest) =
  (if decide (status = name) then [s] else []) ++ filter (tagged w name) rest.
Proof.
  intros T. rewrite filter_cons. unfold tagged in *.
  destruct (decide (status = name)) as [<- | N].
  - rewrite decide_True by exact T. reflexivity.
  - rewrite decide_False; [reflexivity|]. rewrite T. congruence.
Qed.

Lemma put_app name status s B L :
  put name status s B ++ L = B ++ (if decide (status = name) then [s] else []) ++ L.
Proof.
  unfold put. destruct (decide (status = name)); [rewrite <- app_assoc|]; reflexivity.
Qed.

(** With distinct objects in the list, the buckets are the filters of the
    list by the tag each object ends with, and each object is annotated
    by one classification at one reading of the clock. *)
Lemma categorize_from_buckets ss : forall A C S w b w',
  categorize_from ss A C S w = Ok (b, w') ->
  NoDup ss ->
  b = (A ++ filter (tagged w' "active") ss,
       C ++ filter (tagged w' "completed") ss,
       S ++ filter (tagged w' "stuck") ss) /\
  (forall l, l ∈ ss ->
     exists (i : nat) r,
       (ticks w <= i < ticks w + length ss)%nat /\
       classify (heap w l) (clock w i) = Ok r /\
       heap w' l = annotate r (heap w l)).
Proof.
  induction ss as [| s rest IH]; intros A C S w b w' E ND.
  - simpl in E. injection E as <- <-. rewrite !app_nil_r. split; [reflexivity|].
    intros l Hl. apply elem_of_nil in Hl. contradiction.
  - apply NoDup_cons in ND as [Hs ND].
    destruct (classify (heap w s) (clock w (ticks w))) as [[[status icon] color] | e] eqn:Ec.
    + destruct (categorize_from_step s rest A C S w _ _ _ Ec) as (w2 & Hh & Hn & Hc & Ht & Eq).
      rewrite Eq in E. destruct (IH _ _ _ _ _ _ E ND) as (-> & Ia).
      destruct (categorize_from_frame _ _ _ _ _ _ _ E) as (Fc & Fn & Ft & Fh & Fk).
      assert (Hw's : heap w' s = annotate (status, icon, color) (heap w s)).
      { rewrite (Fh s Hs), Hh. rewrite decide_True by reflexivity. reflexivity. }
      assert (T : tagged w' status s).
      { unfold tagged. rewrite Hw's. apply annotate_status. }
      split.
      * rewrite !put_app, !(filter_tagged_head w' _ status s rest T). reflexivity.
      * intros l Hl. apply elem_of_cons in Hl as [-> | Hl].
        -- exists (ticks w), (status, icon, color). simpl. repeat split; [lia | lia | exact Ec | exact Hw's].
        -- destruct (Ia l Hl) as (i & r & Hi & Hcl & Hr).
           assert (Hne : l <> s) by (intros ->; contradiction).
           rewrite Hh in Hcl, Hr. rewrite decide_False in Hcl, Hr by exact Hne.
           rewrite Hc in Hcl.
           exists i, r. simpl. repeat split; [lia | lia | exact Hcl | exact Hr].
    + rewrite (categorize_from_raise s rest A C S w e Ec) in E. discriminate.
Qed.

Lemma classifiable_step w w2 s r l :
  (forall l, heap w2 l = if decide (l = s) then annotate r (heap w l) else heap w l) ->
  clock w2 = clock w ->
  classifiable w (heap w l) -> classifiable w2 (heap w2 l).
Proof.
  intros Hh Hc (tokens & updated & Ht & Hu & R).
  exists tokens, updated. rewrite Hh, Hc.
  destruct (decide (l = s)).
  - rewrite (annotate_field_int _ _ _ totalTokens_not_annotation),
      (annotate_field_int _ _ _ updatedAt_not_annotation). auto.
  - auto.
Qed.

(** On classifiable records the loop never raises. *)
Lemma categorize_from_total ss : forall A C S w,
  (forall s, s ∈ ss -> classifiable w (heap w s)) ->
  exists b w', categorize_from ss A C S w = Ok (b, w').
Proof.
  induction ss as [| s rest IH]; intros A C S w H.
  - simpl. unfold ret. eauto.
  - destruct (H s ltac:(left)) as (tokens & updated & Ht & Hu & R).
    destruct (classify_rule (heap w s) (clock w (ticks w)) tokens updated Ht Hu (R _))
      as (icon & color & Ec).
    destruct (categorize_from_step s rest A C S w _ _ _ Ec) as (w2 & Hh & Hn & Hc & Htk & Eq).
    rewrite Eq. apply IH. intros l Hl.
    eapply classifiable_step; [exact Hh | exact Hc |]. apply H. right. exact Hl.
Qed.

End LoopInvariants.

(** * The loop: determinism *)

Section Determinism.

Lemma classify_same_input d1 d2 now :
  same_input d1 d2 -> classify d1 now = classify d2 now.
Proof. intros [Ht Hu]. unfold classify, get. rewrite Ht, Hu. reflexivity. Qed.

Lemma same_input_annotate r1 r2 d1 d2 :
  same_input d1 d2 -> same_input (annotate r1 d1) (annotate r2 d2).
Proof.
  intros [Ht Hu]. unfold same_input.
  rewrite !(annotate_lookup_other _ _ _ totalTokens_not_annotation),
    !(annotate_lookup_other _ _ _ updatedAt_not_annotation). auto.
Qed.

(** Two runs of the loop over records with the same classifier input,
    under clocks that give them the same readings, have the same outcome
    and leave the same status tags. *)
Lemma categorize_from_deterministic ss : forall A C S w1 w2,
  (forall i, (i < length ss)%nat ->
             clock w1 (ticks w1 + i)%nat = clock w2 (ticks w2 + i)%nat) ->
  (forall l, l ∈ ss -> same_input (heap w1 l) (heap w2 l)) ->
  outcome (categorize_from ss A C S w1) = outcome (categorize_from ss A C S w2) /\
  (forall b1 w1' b2 w2',
      categorize_from ss A C S w1 = Ok (b1, w1') ->
      categorize_from ss A C S w2 = Ok (b2, w2') ->
      forall l, l ∈ ss ->
        heap w1' l !! "_status"%string = heap w2' l !! "_status"%string).
Proof.
  induction ss as [| s rest IH]; intros A C S w1 w2 Hk Hin.
  - simpl. split; [reflexivity|]. intros ? ? ? ? _ _ l Hl.
    apply elem_of_nil in Hl. contradiction.
  - assert (Ec : classify (heap w1 s) (clock w1 (ticks w1)) =
                 classify (heap w2 s) (clock w2 (ticks w2))).
    { pose proof (Hk 0%nat ltac:(simpl; lia)) as K0. rewrite !Nat.add_0_r in K0.
      rewrite K0. apply classify_same_input, Hin. left. }
    destruct (classify (heap w2 s) (clock w2 (ticks w2)))
      as [[[status icon] color] | e] eqn:E2.
    + destruct (categorize_from_step s rest A C S w1 _ _ _ Ec)
        as (v1 & Hh1 & _ & Hc1 & Ht1 & Eq1).
      destruct (categorize_from_step s rest A C S w2 _ _ _ E2)
        as (v2 & Hh2 & _ & Hc2 & Ht2 & Eq2).
      rewrite Eq1, Eq2.
      assert (Hk' : forall i, (i < length rest)%nat ->
                              clock v1 (ticks v1 + i)%nat = clock v2 (ticks v2 + i)%nat).
      { intros i Hi. rewrite Hc1, Hc2, Ht1, Ht2.
        pose proof (Hk (Datatypes.S i) ltac:(simpl; lia)) as K.
        rewrite !Nat.add_succ_r in K. exact K. }
      assert (Hin' : forall l, l ∈ rest -> same_input (heap v1 l) (heap v2 l)).
      { intros l Hl. rewrite Hh1, Hh2. destruct (decide (l = s)).
        - apply same_input_annotate, Hin. right. exact Hl.
        - apply Hin. right. exact Hl. }
      destruct (IH (put "active" status s A) (put "completed" status s C)
                   (put "stuck" status s S) v1 v2 Hk' Hin') as [Io It].
      split; [exact Io|].
      intros b1 w1' b2 w2' R1 R2 l Hl.
      destruct (decide (l ∈ rest)) as [Hr | Hr].
      * exact (It _ _ _ _ R1 R2 l Hr).
      * apply elem_of_cons in Hl as [-> | Hl]; [|contradiction].
        destruct (categorize_from_frame _ _ _ _ _ _ _ R1) as (_ & _ & _ & F1 & _).
        destruct (categorize_from_frame _ _ _ _ _ _ _ R2) as (_ & _ & _ & F2 & _).
        rewrite (F1 s Hr), (F2 s Hr), Hh1, Hh2.
        rewrite !decide_True by reflexivity. rewrite !annotate_status. reflexivity.
    + rewrite (categorize_from_raise s rest A C S w1 e Ec),
        (categorize_from_raise s rest A C S w2 e E2).
      split; [reflexivity|]. intros; discriminate.
Qed.

End Determinism.

(** * Cards and page *)

Section Render.

Lemma format_tokens_ok n : float_range n -> exists s, format_tokens (VInt n) = Ok s.
Proof.
  intros R. destruct (Z_lt_ge_dec n 1000) as [L | G].
  - unfold format_tokens, truthy, ge_int, as_int.
    destruct (negb (negb (n =? 0))); [eauto|].
    destruct (Z.leb_spec 1000 n); [lia|].
    unfold str_value. rewrite (int_str_ok n (float_range_digits n R)). eauto.
  - rewrite format_tokens_large by (auto; lia). eauto.
Qed.

(** A card is rendered with one reading of the clock and no write. *)
Lemma render_agent_card_ok s w tokens updated :
  Spec.field_int (heap w s) "totalTokens" = Some tokens ->
  Spec.field_int (heap w s) "updatedAt" = Some updated ->
  float_range (clock w (ticks w) - updated) ->
  float_range tokens ->
  exists c,
    render_agent_card s w = Ok (c, tick w) /\
    card_of (heap w s) c /\
    card_idle c =
    (str_int (trunc (idle_float (clock w (ticks w) - updated))) +:+ "m")%string.
Proof.
  intros Ht Hu R Rt.
  destruct (format_tokens_ok tokens Rt) as (td & Etd).
  unfold render_agent_card.
  unfold bind at 1. unfold deref. unfold bind at 1. unfold now_ms.
  rewrite (field_int_get _ _ _ Ht), (field_int_get _ _ _ Hu).
  unfold bind at 1. unfold lift at 1. rewrite (idle_minutes_int _ _ R).
  unfold bind at 1. unfold lift at 1. rewrite Etd. unfold ret. fold (tick w).
  eexists. split; [reflexivity|]. split; [|reflexivity].
  unfold card_of.
  cbn [card_icon card_label card_kind card_model card_tokens card_status].
  rewrite (field_int_get _ _ _ Ht). repeat split; try reflexivity. exact Etd.
Qed.

Lemma displayable_tick w d : displayable w d -> displayable (tick w) d.
Proof. intros H. exact H. Qed.

Lemma mapM_render l : forall w,
  (forall s, s ∈ l -> displayable w (heap w s)) ->
  exists cards w',
    mapM render_agent_card l w = Ok (cards, w') /\
    heap w' = heap w /\ clock w' = clock w /\ next w' = next w /\
    ticks w' = (ticks w + length l)%nat /\
    Forall2 (fun s c => card_of (heap w s) c) l cards.
Proof.
  induction l as [| s l IH]; intros w H.
  - exists [], w. simpl. unfold ret. repeat split; auto with lia.
  - destruct (H s ltac:(left)) as [(tokens & updated & Ht & Hu & R) (tokens' & Ht' & Rt)].
    assert (tokens' = tokens) by congruence. subst tokens'.
    destruct (render_agent_card_ok s w tokens updated Ht Hu (R _) Rt) as (c & Ec & Hc & _).
    destruct (IH (tick w)) as (cards & w' & Em & Hh & Hk & Hn & Htk & Hf).
    { intros s' Hs'. apply displayable_tick, H. right. exact Hs'. }
    exists (c :: cards), w'. simpl. unfold bind at 1. rewrite Ec.
    unfold bind at 1. rewrite Em. unfold ret.
    repeat split; auto. rewrite Htk. simpl. lia.
Qed.

(** One bucket's section: nothing for an empty bucket, else the cards of
    the members shown. *)
Lemma section_run name (bucket shown : list loc) more (page : list block) w :
  (bucket = [] -> shown = []) ->
  (forall s, s ∈ shown -> displayable w (heap w s)) ->
  exists cards w',
    match bucket with
    | [] => ret page
    | _ => do cards <- mapM render_agent_card shown;
           ret (page ++ [AgentSection name cards more])
    end w = Ok (page ++ section_of name bucket cards more, w') /\
    heap w' = heap w /\ clock w' = clock w /\
    Forall2 (fun s c => card_of (heap w s) c) shown cards.
Proof.
  intros He H. destruct bucket as [| b bucket].
  - rewrite (He eq_refl). exists [], w. unfold ret, section_of.
    rewrite app_nil_r. repeat split. constructor.
  - destruct (mapM_render shown w H) as (cards & w' & Em & Hh & Hc & _ & _ & Hf).
    exists cards, w'. unfold bind. rewrite Em. unfold ret, section_of.
    repeat split; assumption.
Qed.

Lemma displayable_frame w w' d :
  clock w' = clock w -> displayable w d -> displayable w' d.
Proof.
  intros Hc [(t & u & Ht & Hu & R) D]. split; [|exact D].
  exists t, u. rewrite Hc. auto.
Qed.

(** The page: clock stamp, the four counts, one section per non-empty
    bucket with the completed one cut after ten cards, the empty state
    when there is no session at all. *)
Lemma render_page sessions A C S w :
  (forall s, s ∈ A ++ C ++ S -> displayable w (heap w s)) ->
  exists cards_a cards_c cards_s w',
    render sessions (A, C, S) w =
    Ok ([ Header (clock w (ticks w));
          StatsGrid (str_int (len A)) (str_int (len C)) (str_int (len S))
                    (str_int (len sessions)) ]
        ++ section_of "active" A cards_a None
        ++ section_of "completed" C cards_c
             (if 10 <? len C then Some (str_int (len C - 10)) else None)
        ++ section_of "stuck" S cards_s None
        ++ (match sessions with [] => [EmptyState] | _ => [] end)
        ++ [Footer], w') /\
    Forall2 (fun s c => card_of (heap w s) c) A cards_a /\
    Forall2 (fun s c => card_of (heap w s) c) (take 10 C) cards_c /\
    Forall2 (fun s c => card_of (heap w s) c) S cards_s /\
    heap w' = heap w.
Proof.
  intros H.
  set (page0 := [ Header (clock w (ticks w));
                  StatsGrid (str_int (len A)) (str_int (len C)) (str_int (len S))
                            (str_int (len sessions)) ]).
  destruct (section_run "active" A A None page0 (tick w)) as (ca & wa & Ea & Hha & Hca & Fa).
  { auto. }
  { intros s Hs. apply displayable_tick, H. set_solver. }
  set (more := if 10 <? len C then Some (str_int (len C - 10)) else None).
  destruct (section_run "completed" C (take 10 C) more
              (page0 ++ section_of "active" A ca None) wa)
    as (cc & wc & Ec & Hhc & Hcc & Fc).
  { intros ->. reflexivity. }
  { intros s Hs. rewrite Hha. apply (displayable_frame (tick w)); [exact Hca|].
    apply displayable_tick, H.
    apply elem_of_take in Hs as (i & Hs & _).
    apply list_elem_of_lookup_2 in Hs. set_solver. }
  destruct (section_run "stuck" S S None
              ((page0 ++ section_of "active" A ca None) ++ section_of "completed" C cc more) wc)
    as (cs & ws & Es & Hhs & Hcs & Fs).
  { auto. }
  { intros s Hs. rewrite Hhc, Hha. apply (displayable_frame (tick w)); [congruence|].
    apply displayable_tick, H. set_solver. }
  exists ca, cc, cs, ws.
  split.
  - unfold render. unfold bind at 1. unfold now_ms. fold (tick w). fold page0.
    unfold bind at 1. rewrite Ea.
    unfold bind at 1. fold more. rewrite Ec.
    unfold bind at 1. rewrite Es. unfold ret.
    destruct sessions; rewrite <- ?app_assoc; reflexivity.
  - rewrite Hha in Fc. rewrite Hhc, Hha in Fs.
    change (heap (tick w)) with (heap w) in *.
    repeat split; try assumption. congruence.
Qed.

End Render.

(** * The dashboard and the session source *)

Section Dashboard.

(** Every object of the list ends with one of the four status tags. *)
Lemma categorize_from_tagged ss : forall A C S w b w',
  categorize_from ss A C S w = Ok (b, w') ->
  forall l, l ∈ ss -> exists name, name ∈ Spec.statuses /\ tagged w' name l.
Proof.
  induction ss as [| s rest IH]; intros A C S w b w' E l Hl.
  - apply elem_of_nil in Hl. contradiction.
  - destruct (classify (heap w s) (clock w (ticks w))) as [[[status icon] color] | e] eqn:Ec.
    + destruct (categorize_from_step s rest A C S w _ _ _ Ec) as (w2 & Hh & _ & _ & _ & Eq).
      rewrite Eq in E.
      destruct (decide (l ∈ rest)) as [Hr | Hr]; [exact (IH _ _ _ _ _ _ E l Hr)|].
      apply elem_of_cons in Hl as [-> | Hl]; [|contradiction].
      destruct (categorize_from_frame _ _ _ _ _ _ _ E) as (_ & _ & _ & Fh & _).
      exists status. split; [exact (classify_status _ _ _ _ _ Ec)|].
      unfold tagged. rewrite (Fh s Hr), Hh, decide_True by reflexivity.
      apply annotate_status.
    + rewrite (categorize_from_raise s rest A C S w e Ec) in E. discriminate.
Qed.

Lemma displayable_after w w' d d' :
  clock w' = clock w ->
  (forall key, key ∉ annotation_keys -> d' !! key = d !! key) ->
  displayable w d -> displayable w' d'.
Proof.
  intros Hc Hk [(t & u & Ht & Hu & R) (t' & Ht' & Rt)].
  assert (Ft : Spec.field_int d' "totalTokens" = Spec.field_int d "totalTokens").
  { unfold Spec.field_int. rewrite (Hk _ totalTokens_not_annotation). reflexivity. }
  assert (Fu : Spec.field_int d' "updatedAt" = Spec.field_int d "updatedAt").
  { unfold Spec.field_int. rewrite (Hk _ updatedAt_not_annotation). reflexivity. }
  split.
  - exists t, u. rewrite Ft, Fu, Hc. auto.
  - exists t'. rewrite Ft. auto.
Qed.

(** The whole of [generate_dashboard] on distinct, displayable records. *)
Lemma generate_dashboard_page sessions w :
  NoDup sessions ->
  (forall s, s ∈ sessions -> displayable w (heap w s)) ->
  exists A C S w' cards_a cards_c cards_s w'',
    categorize sessions w = Ok ((A, C, S), w') /\
    A = filter (tagged w' "active") sessions /\
    C = filter (tagged w' "completed") sessions /\
    S = filter (tagged w' "stuck") sessions /\
    generate_dashboard sessions w =
    Ok ([ Header (clock w (ticks w + length sessions)%nat);
          StatsGrid (str_int (len A)) (str_int (len C)) (str_int (len S))
                    (str_int (len sessions)) ]
        ++ section_of "active" A cards_a None
        ++ section_of "completed" C cards_c
             (if 10 <? len C then Some (str_int (len C - 10)) else None)
        ++ section_of "stuck" S cards_s None
        ++ (match sessions with [] => [EmptyState] | _ => [] end)
        ++ [Footer], w'') /\
    Forall2 (fun s c => card_of (heap w' s) c) A cards_a /\
    Forall2 (fun s c => card_of (heap w' s) c) (take 10 C) cards_c /\
    Forall2 (fun s c => card_of (heap w' s) c) S cards_s.
Proof.
  intros ND H.
  destruct (categorize_from_total sessions [] [] [] w) as ([[A C] S] & w' & E).
  { intros s Hs. apply H. exact Hs. }
  destruct (categorize_from_buckets _ _ _ _ _ _ _ E ND) as (Eb & _).
  destruct (categorize_from_frame _ _ _ _ _ _ _ E) as (Fc & _ & Ft & _ & Fk).
  simpl in Eb. injection Eb as HA HC HS.
  destruct (render_page sessions A C S w') as (ca & cc & cs & w'' & Er & Fa & Fcc & Fs & _).
  { intros s Hs.
    assert (Hin : s ∈ sessions).
    { rewrite HA, HC, HS in Hs. rewrite !elem_of_app, !list_elem_of_filter in Hs. tauto. }
    apply (displayable_after w w' (heap w s)); [exact Fc | intros; apply Fk; assumption | auto]. }
  exists A, C, S, w', ca, cc, cs, w''.
  repeat split; try assumption.
  unfold generate_dashboard, bind. fold (categorize sessions w). unfold categorize.
  rewrite E, Er, Fc, Ft. reflexivity.
Qed.

End Dashboard.

Section SourceFacts.

Variable subprocess_run : string -> string + string.
Variable strip : string -> string.
Variable json_loads : string -> option document.

Lemma get_sessions_unparsed w :
  json_loads (run_command subprocess_run strip sessions_command) = None ->
  get_sessions subprocess_run strip json_loads w = Ok ([], w).
Proof. intros H. unfold get_sessions. rewrite H. reflexivity. Qed.

(** [json.loads] builds one new object per record: the references are
    the next free ones, in order, all distinct, and each holds its
    record. *)
Lemma mapM_alloc records : forall w,
  exists w',
    mapM alloc records w = Ok (seq (next w) (length records), w') /\
    clock w' = clock w /\ ticks w' = ticks w /\
    (forall l, (l < next w)%nat -> heap w' l = heap w l) /\
    (forall (i : nat) d, records !! i = Some d -> heap w' (next w + i)%nat = d).
Proof.
  induction records as [| d records IH]; intros w.
  - exists w. simpl. unfold ret. repeat split; auto. intros i d H. discriminate.
  - set (w1 := World (fun l => if decide (l = next w) then d else heap w l)
                     (Datatypes.S (next w)) (clock w) (ticks w)).
    destruct (IH w1) as (w' & E & Hc & Ht & Hlow & Hrec).
    exists w'. simpl. unfold bind at 1. unfold alloc at 1. fold w1.
    unfold bind at 1. rewrite E. unfold ret.
    split; [reflexivity|]. split; [exact Hc|]. split; [exact Ht|]. split.
    + intros l Hl. rewrite Hlow by (simpl; lia). simpl.
      rewrite decide_False by lia. reflexivity.
    + intros [| i] d' H; simpl in H.
      * injection H as <-. rewrite Nat.add_0_r, Hlow by (simpl; lia).
        simpl. rewrite decide_True by reflexivity. reflexivity.
      * replace (next w + Datatypes.S i)%nat with (next w1 + i)%nat by (simpl; lia).
        apply Hrec. exact H.
Qed.

Lemma get_sessions_fresh records w :
  json_loads (run_command subprocess_run strip sessions_command) =
  Some (DocObject (Some records)) ->
  exists w',
    get_sessions subprocess_run strip json_loads w =
    Ok (seq (next w) (length records), w') /\
    NoDup (seq (next w) (length records)) /\
    clock w' = clock w /\ ticks w' = ticks w /\
    (forall (i : nat) d, records !! i = Some d -> heap w' (next w + i)%nat = d).
Proof.
  intros H. unfold get_sessions. rewrite H.
  destruct (mapM_alloc records w) as (w' & E & Hc & Ht & _ & Hrec).
  exists w'. repeat split; auto. apply NoDup_seq.
Qed.

Lemma generate_dashboard_empty w :
  generate_dashboard [] w =
  Ok ([Header (clock w (ticks w)); StatsGrid "0" "0" "0" "0"; EmptyState; Footer], tick w).
Proof. reflexivity. Qed.

End SourceFacts.

(** * The claims *)

Lemma float_range_small d : Z.abs d < 2 ^ 64 -> float_range d.
Proof.
  intros H. unfold float_range. apply Z.lt_trans with (1 := H).
  apply Z.pow_lt_mono_r; lia.
Qed.

Lemma examples_clock_range updated :
  Z.abs updated < 2 ^ 62 -> forall i, float_range (Examples.clock0 i - updated).
Proof.
  intros H i. apply float_range_small. unfold Examples.clock0, Examples.now0.
  change (2 ^ 64) with 18446744073709551616.
  change (2 ^ 62) with 4611686018427387904 in H. lia.
Qed.

(** C1.  For a session record whose numeric fields are ints or absent
    (absent counting as 0) and an instant [now] read from the clock,
    [get_status] returns exactly one status, the one of the decision rule
    evaluated in order on the real number [(now - updatedAt) / 60000]:
    stuck when tokens are 0 and idle exceeds 5, else active when idle is
    below 2 (also with 0 tokens), else completed when tokens are positive,
    else idle. *)
Theorem C1_status_rule (session : dict) (w : world) (tokens updated : Z) :
  Spec.field_int session "totalTokens" = Some tokens ->
  Spec.field_int session "updatedAt" = Some updated ->
  float_range (clock w (ticks w) - updated) ->
  (exists icon color,
      get_status session w =
      Ok ((Spec.status tokens updated (clock w (ticks w)), icon, color), tick w)) /\
  Spec.status tokens updated (clock w (ticks w)) ∈ Spec.statuses /\
  (Spec.Qltb (Spec.idle_minutes (clock w (ticks w)) updated) 2 = true ->
   Spec.status tokens updated (clock w (ticks w)) = "active"%string).
Proof.
  intros Ht Hu R. split; [|split].
  - apply get_status_rule; assumption.
  - apply status_in_statuses.
  - intros H. unfold Spec.status. rewrite H.
    rewrite real_lt2 in H. rewrite real_gt5.
    apply Z.ltb_lt in H.
    destruct (Z.ltb_spec 300000 (clock w (ticks w) - updated)); [lia|].
    rewrite andb_false_r. reflexivity.
Qed.

Lemma C1_status_rule_witness :
  (exists icon color,
      get_status Examples.rec_active (Examples.world_of [Examples.rec_active]) =
      Ok ((Spec.status 0 (Examples.now0 - 60000) Examples.now0, icon, color),
          tick (Examples.world_of [Examples.rec_active]))) /\
  Spec.status 0 (Examples.now0 - 60000) Examples.now0 ∈ Spec.statuses /\
  (Spec.Qltb (Spec.idle_minutes Examples.now0 (Examples.now0 - 60000)) 2 = true ->
   Spec.status 0 (Examples.now0 - 60000) Examples.now0 = "active"%string).
Proof.
  apply (C1_status_rule Examples.rec_active (Examples.world_of [Examples.rec_active])
           0 (Examples.now0 - 60000)).
  - reflexivity.
  - reflexivity.
  - vm_compute. reflexivity.
Defined.

Lemma tagged_unique w name1 name2 s : tagged w name1 s -> tagged w name2 s -> name1 = name2.
Proof. unfold tagged. intros H1 H2. congruence. Qed.

Lemma filter_tagged_length w (ss : list loc) :
  (forall s, s ∈ ss -> exists name, name ∈ Spec.statuses /\ tagged w name s) ->
  (length (filter (tagged w "active") ss) + length (filter (tagged w "completed") ss) +
   length (filter (tagged w "stuck") ss) + length (filter (tagged w "idle") ss))%nat
  = length ss.
Proof.
  induction ss as [| s ss IH]; intros H; [reflexivity|].
  assert (IH' := IH (fun l Hl => H l (list_elem_of_further _ _ _ Hl))).
  destruct (H s ltac:(left)) as (name & Hn & T).
  rewrite !(filter_tagged_head w _ name s ss T).
  unfold Spec.statuses in Hn.
  repeat (apply elem_of_cons in Hn as [-> | Hn]);
    [ | | | | apply elem_of_nil in Hn; contradiction];
    simpl; lia.
Qed.

(** The record at position [j] of the list is classified at the [j]-th
    reading of the clock made by the loop, and ends with the three
    annotations of that result. *)
Lemma categorize_from_at ss : forall A C S w b w',
  categorize_from ss A C S w = Ok (b, w') ->
  NoDup ss ->
  forall (j : nat) s, ss !! j = Some s ->
    exists r,
      classify (heap w s) (clock w (ticks w + j)%nat) = Ok r /\
      heap w' s = annotate r (heap w s).
Proof.
  induction ss as [| s0 rest IH]; intros A C S w b w' E ND j s Hj.
  - rewrite lookup_nil in Hj. discriminate.
  - apply NoDup_cons in ND as [Hs0 ND].
    destruct (classify (heap w s0) (clock w (ticks w))) as [[[status icon] color] | e] eqn:Ec.
    + destruct (categorize_from_step s0 rest A C S w _ _ _ Ec) as (w2 & Hh & Hn & Hc & Ht & Eq).
      rewrite Eq in E.
      destruct (categorize_from_frame _ _ _ _ _ _ _ E) as (_ & _ & _ & Fh & _).
      destruct j as [| j].
      * simpl in Hj. injection Hj as <-.
        exists (status, icon, color). rewrite Nat.add_0_r. split; [exact Ec|].
        rewrite (Fh s0 Hs0), Hh. rewrite decide_True by reflexivity. reflexivity.
      * simpl in Hj.
        destruct (IH _ _ _ _ _ _ E ND j s Hj) as (r & Hcl & Hr).
        assert (Hne : s <> s0).
        { intros ->. apply Hs0. eapply list_elem_of_lookup_2. exact Hj. }
        rewrite Hh in Hcl, Hr. rewrite decide_False in Hcl, Hr by exact Hne.
        rewrite Hc, Ht in Hcl.
        replace (ticks w + Datatypes.S j)%nat with (Datatypes.S (ticks w) + j)%nat by lia.
        exists r. split; [exact Hcl | exact Hr].
    + rewrite (categorize_from_raise s0 rest A C S w e Ec) in E. discriminate.
Qed.

(** C2.  On a list of distinct, displayable session records
    [generate_dashboard] builds the three buckets as the filters of the
    input list by status tag, so in input order, and the tag of the record
    at position [j] is the status that the decision rule gives to its
    [totalTokens] and [updatedAt] at the [j]-th reading of the clock; every
    record carries one of the four tags, no record is in two buckets, a
    record tagged idle is in none, the three buckets and the idle records
    together are the whole input, and the total shown on the page is the
    length of the input. *)
Theorem C2_buckets_partition (sessions : list loc) (w : world) :
  NoDup sessions ->
  (forall s, s ∈ sessions -> displayable w (heap w s)) ->
  exists active completed stuck w' page w'',
    categorize sessions w = Ok ((active, completed, stuck), w') /\
    active = filter (tagged w' "active") sessions /\
    completed = filter (tagged w' "completed") sessions /\
    stuck = filter (tagged w' "stuck") sessions /\
    (forall (j : nat) s tokens updated,
        sessions !! j = Some s ->
        Spec.field_int (heap w s) "totalTokens" = Some tokens ->
        Spec.field_int (heap w s) "updatedAt" = Some updated ->
        tagged w' (Spec.status tokens updated (clock w (ticks w + j)%nat)) s) /\
    (forall s, s ∈ sessions -> exists name, name ∈ Spec.statuses /\ tagged w' name s) /\
    (forall s, ~ (s ∈ active /\ s ∈ completed) /\ ~ (s ∈ active /\ s ∈ stuck) /\
               ~ (s ∈ completed /\ s ∈ stuck)) /\
    (forall s, tagged w' "idle" s -> (s ∉ active) /\ (s ∉ completed) /\ (s ∉ stuck)) /\
    (forall s, s ∈ sessions <->
               s ∈ active \/ s ∈ completed \/ s ∈ stuck \/
               s ∈ filter (tagged w' "idle") sessions) /\
    (length active + length completed + length stuck +
     length (filter (tagged w' "idle") sessions))%nat = length sessions /\
    generate_dashboard sessions w = Ok (page, w'') /\
    page !! 1%nat =
    Some (StatsGrid (str_int (len active)) (str_int (len completed))
                    (str_int (len stuck)) (str_int (len sessions))).
Proof.
  intros ND H.
  destruct (generate_dashboard_page sessions w ND H)
    as (A & C & S & w' & ca & cc & cs & w'' & Ec & HA & HC & HS & Eg & _).
  assert (T : forall s, s ∈ sessions -> exists name, name ∈ Spec.statuses /\ tagged w' name s).
  { intros s Hs. exact (categorize_from_tagged _ _ _ _ _ _ _ Ec s Hs). }
  eexists A, C, S, w', _, w''.
  split; [exact Ec|]. split; [exact HA|]. split; [exact HC|]. split; [exact HS|].
  split.
  { intros j s tokens updated Hj Ht Hu.
    destruct (categorize_from_at _ _ _ _ _ _ _ Ec ND j s Hj) as (r & Hcl & Hr).
    destruct (H s (list_elem_of_lookup_2 _ _ _ Hj)) as [(t0 & u0 & Ht0 & Hu0 & R) _].
    assert (u0 = updated) as -> by congruence.
    destruct (classify_rule _ _ _ _ Ht Hu (R (ticks w + j)%nat)) as (icon & color & Er).
    rewrite Er in Hcl. injection Hcl as <-.
    unfold tagged. rewrite Hr. apply annotate_status. }
  split; [exact T|].
  split; [|split; [|split; [|split; [|split; [exact Eg | reflexivity]]]]].
  - intros s. rewrite HA, HC, HS, !list_elem_of_filter.
    repeat split; intros [[T1 _] [T2 _]];
      discriminate (tagged_unique _ _ _ _ T1 T2).
  - intros s Ti. rewrite HA, HC, HS, !list_elem_of_filter.
    repeat split; intros [T1 _]; discriminate (tagged_unique _ _ _ _ Ti T1).
  - intros s. rewrite HA, HC, HS, !list_elem_of_filter. split.
    + intros Hs. destruct (T s Hs) as (name & Hn & Tn).
      unfold Spec.statuses in Hn.
      repeat (apply elem_of_cons in Hn as [-> | Hn]); [tauto | tauto | tauto | tauto |].
      apply elem_of_nil in Hn. contradiction.
    + tauto.
  - rewrite HA, HC, HS. apply filter_tagged_length. exact T.
Qed.

Lemma record_displayable w tokens idle_ms extra :
  clock w = Examples.clock0 ->
  Z.abs tokens < 2 ^ 62 -> Z.abs (Examples.now0 - idle_ms) < 2 ^ 62 ->
  displayable w (<["label" := VStr extra]> (Examples.record tokens idle_ms)) /\
  displayable w (Examples.record tokens idle_ms).
Proof.
  intros Hc Ht Hu.
  assert (R : forall i, float_range (clock w i - (Examples.now0 - idle_ms))).
  { rewrite Hc. apply examples_clock_range. exact Hu. }
  assert (Rt : float_range tokens).
  { apply float_range_small. apply Z.lt_trans with (1 := Ht). reflexivity. }
  split; (split; [exists tokens, (Examples.now0 - idle_ms) | exists tokens]);
    repeat split; auto.
Qed.

Lemma bare_displayable w extra :
  clock w = Examples.clock0 -> displayable w (<["label" := VStr extra]> ∅).
Proof.
  intros Hc.
  assert (R : forall i, float_range (clock w i - 0)).
  { rewrite Hc. apply examples_clock_range. reflexivity. }
  split; [exists 0, 0 | exists 0]; repeat split; auto.
Qed.

Lemma records5_displayable s :
  s ∈ seq 0 5 ->
  displayable (Examples.world_of Examples.records5)
              (heap (Examples.world_of Examples.records5) s).
Proof.
  intros Hs. simpl in Hs.
  repeat (apply elem_of_cons in Hs as [-> | Hs]).
  - apply (record_displayable _ 0 60000 EmptyString); reflexivity.
  - apply (record_displayable _ 0 600000 EmptyString); reflexivity.
  - apply (record_displayable _ 500 180000 "build"); reflexivity.
  - apply (record_displayable _ 0 180000 EmptyString); reflexivity.
  - apply bare_displayable. reflexivity.
  - apply elem_of_nil in Hs. contradiction.
Qed.

Lemma C2_buckets_partition_witness :
  exists active completed stuck w' page w'',
    categorize (seq 0 5) (Examples.world_of Examples.records5) =
    Ok ((active, completed, stuck), w') /\
    active = filter (tagged w' "active") (seq 0 5) /\
    completed = filter (tagged w' "completed") (seq 0 5) /\
    stuck = filter (tagged w' "stuck") (seq 0 5) /\
    (forall (j : nat) s tokens updated,
        seq 0 5 !! j = Some s ->
        Spec.field_int (heap (Examples.world_of Examples.records5) s) "totalTokens" = Some tokens ->
        Spec.field_int (heap (Examples.world_of Examples.records5) s) "updatedAt" = Some updated ->
        tagged w'
          (Spec.status tokens updated
             (clock (Examples.world_of Examples.records5)
                (ticks (Examples.world_of Examples.records5) + j)%nat)) s) /\
    (forall s, s ∈ seq 0 5 -> exists name, name ∈ Spec.statuses /\ tagged w' name s) /\
    (forall s, ~ (s ∈ active /\ s ∈ completed) /\ ~ (s ∈ active /\ s ∈ stuck) /\
               ~ (s ∈ completed /\ s ∈ stuck)) /\
    (forall s, tagged w' "idle" s -> (s ∉ active) /\ (s ∉ completed) /\ (s ∉ stuck)) /\
    (forall s, s ∈ seq 0 5 <->
               s ∈ active \/ s ∈ completed \/ s ∈ stuck \/
               s ∈ filter (tagged w' "idle") (seq 0 5)) /\
    (length active + length completed + length stuck +
     length (filter (tagged w' "idle") (seq 0 5)))%nat = length (seq 0 5) /\
    generate_dashboard (seq 0 5) (Examples.world_of Examples.records5) = Ok (page, w'') /\
    page !! 1%nat =
    Some (StatsGrid (str_int (len active)) (str_int (len completed))
                    (str_int (len stuck)) (str_int (len (seq 0 5)))).
Proof.
  apply (C2_buckets_partition (seq 0 5) (Examples.world_of Examples.records5)).
  - apply NoDup_seq.
  - exact records5_displayable.
Defined.

(** C3.  On distinct, displayable records the page has one card per member
    of the active bucket and one per member of the stuck bucket, in bucket
    order, whatever their size; the completed section has the cards of the
    first ten members of its bucket, and when the bucket has more than ten
    members, exactly ten cards and the number [len(completed) - 10] in
    place of the others. *)
Theorem C3_completed_truncated (sessions : list loc) (w : world) :
  NoDup sessions ->
  (forall s, s ∈ sessions -> displayable w (heap w s)) ->
  exists active completed stuck w' cards_a cards_c cards_s more w'',
    categorize sessions w = Ok ((active, completed, stuck), w') /\
    generate_dashboard sessions w =
    Ok ([ Header (clock w (ticks w + length sessions)%nat);
          StatsGrid (str_int (len active)) (str_int (len completed))
                    (str_int (len stuck)) (str_int (len sessions)) ]
        ++ section_of "active" active cards_a None
        ++ section_of "completed" completed cards_c more
        ++ section_of "stuck" stuck cards_s None
        ++ (match sessions with [] => [EmptyState] | _ => [] end)
        ++ [Footer], w'') /\
    Forall2 (fun s c => card_of (heap w' s) c) active cards_a /\
    Forall2 (fun s c => card_of (heap w' s) c) (take 10 completed) cards_c /\
    Forall2 (fun s c => card_of (heap w' s) c) stuck cards_s /\
    length cards_a = length active /\
    length cards_s = length stuck /\
    (10 < len completed ->
     length cards_c = 10%nat /\ more = Some (str_int (len completed - 10))) /\
    (len completed <= 10 -> length cards_c = length completed /\ more = None).
Proof.
  intros ND H.
  destruct (generate_dashboard_page sessions w ND H)
    as (A & C & S & w' & ca & cc & cs & w'' & Ec & _ & _ & _ & Eg & Fa & Fc & Fs).
  exists A, C, S, w', ca, cc, cs,
    (if 10 <? len C then Some (str_int (len C - 10)) else None), w''.
  split; [exact Ec|]. split; [exact Eg|].
  split; [exact Fa|]. split; [exact Fc|]. split; [exact Fs|].
  pose proof (Forall2_length _ _ _ Fa) as La.
  pose proof (Forall2_length _ _ _ Fc) as Lc.
  pose proof (Forall2_length _ _ _ Fs) as Ls.
  rewrite length_take in Lc. unfold len in *.
  split; [congruence|]. split; [congruence|]. split.
  - intros G. destruct (Z.ltb_spec 10 (Z.of_nat (length C))); [|lia].
    split; [lia | reflexivity].
  - intros G. destruct (Z.ltb_spec 10 (Z.of_nat (length C))); [lia|].
    split; [lia | reflexivity].
Qed.

Lemma records12_displayable s :
  s ∈ seq 0 12 ->
  displayable (Examples.world_of Examples.records12)
              (heap (Examples.world_of Examples.records12) s).
Proof.
  intros Hs. simpl in Hs.
  repeat (apply elem_of_cons in Hs as [-> | Hs]);
    try (apply (record_displayable _ 500 180000 "build"); reflexivity).
  apply elem_of_nil in Hs. contradiction.
Qed.

Lemma C3_completed_truncated_witness :
  exists active completed stuck w' cards_a cards_c cards_s more w'',
    categorize (seq 0 12) (Examples.world_of Examples.records12) =
    Ok ((active, completed, stuck), w') /\
    generate_dashboard (seq 0 12) (Examples.world_of Examples.records12) =
    Ok ([ Header (clock (Examples.world_of Examples.records12)
                    (ticks (Examples.world_of Examples.records12) + length (seq 0 12))%nat);
          StatsGrid (str_int (len active)) (str_int (len completed))
                    (str_int (len stuck)) (str_int (len (seq 0 12))) ]
        ++ section_of "active" active cards_a None
        ++ section_of "completed" completed cards_c more
        ++ section_of "stuck" stuck cards_s None
        ++ (match seq 0 12 with [] => [EmptyState] | _ => [] end)
        ++ [Footer], w'') /\
    Forall2 (fun s c => card_of (heap w' s) c) active cards_a /\
    Forall2 (fun s c => card_of (heap w' s) c) (take 10 completed) cards_c /\
    Forall2 (fun s c => card_of (heap w' s) c) stuck cards_s /\
    length cards_a = length active /\
    length cards_s = length stuck /\
    (10 < len completed ->
     length cards_c = 10%nat /\ more = Some (str_int (len completed - 10))) /\
    (len completed <= 10 -> length cards_c = length completed /\ more = None).
Proof.
  apply (C3_completed_truncated (seq 0 12) (Examples.world_of Examples.records12)).
  - apply NoDup_seq.
  - exact records12_displayable.
Defined.

(** C4.  [format_tokens] on a count below [2^53]: ["0"] for zero, the
    decimal digits of the count from 1 to 999, and from 1000 on a nearest
    number of tenths of the count divided by 1000, written with one decimal
    place and followed by [k].  An absent or null count also gives ["0"],
    and 999, 1000 and 2500 give ["999"], ["1.0k"] and ["2.5k"]. *)
Theorem C4_tokens_display (n : Z) :
  0 <= n < 2 ^ 53 ->
  (exists s, format_tokens (VInt n) = Ok s /\ Spec.tokens_display n s) /\
  (forall session : dict,
      session !! "totalTokens"%string = None ->
      format_tokens (get session "totalTokens" (VInt 0)) = Ok "0"%string) /\
  format_tokens VNone = Ok "0"%string /\
  format_tokens (VInt 0) = Ok "0"%string /\
  format_tokens (VInt 999) = Ok "999"%string /\
  format_tokens (VInt 1000) = Ok "1.0k"%string /\
  format_tokens (VInt 2500) = Ok "2.5k"%string.
Proof.
  intros H. split; [|split; [|repeat split; vm_compute; reflexivity]].
  - unfold Spec.tokens_display.
    destruct (Z.eqb_spec n 0) as [-> | N0].
    { exists "0"%string. split; reflexivity. }
    destruct (Z.ltb_spec n 1000) as [L | G].
    { exists (str_int n). split; [apply format_tokens_small; lia | reflexivity]. }
    exists (Spec.one_decimal (tenths n) +:+ "k")%string. split.
    + apply format_tokens_large; [lia|].
      unfold float_range. apply Z.lt_trans with (2 ^ 53); [lia|].
      apply Z.pow_lt_mono_r; lia.
    + exists (tenths n). split; [apply tenths_nearest; lia | reflexivity].
  - intros session Hs. unfold get. rewrite Hs. reflexivity.
Qed.

Lemma C4_tokens_display_witness :
  (exists s, format_tokens (VInt 1500) = Ok s /\ Spec.tokens_display 1500 s) /\
  (forall session : dict,
      session !! "totalTokens"%string = None ->
      format_tokens (get session "totalTokens" (VInt 0)) = Ok "0"%string) /\
  format_tokens VNone = Ok "0"%string /\
  format_tokens (VInt 0) = Ok "0"%string /\
  format_tokens (VInt 999) = Ok "999"%string /\
  format_tokens (VInt 1000) = Ok "1.0k"%string /\
  format_tokens (VInt 2500) = Ok "2.5k"%string.
Proof. apply (C4_tokens_display 1500). vm_compute. split; [discriminate | reflexivity]. Defined.

(** C5.  [format_duration] gives ["N/A"] for [None] and for 0; on any other
    number of milliseconds of at most 4300 decimal digits, the limit of the
    conversion of an int to text, it takes the whole minutes [ms // 60000]
    and gives hours and the minutes modulo 60 when the minutes are 60 or
    more, else the minutes alone; 5400000 gives ["1h 30m"] and 1800000
    gives ["30m"]. *)
Theorem C5_duration_display (ms : Z) :
  Z.abs ms < 10 ^ max_str_digits ->
  format_duration (VInt ms) = Ok (Spec.duration_display ms) /\
  format_duration VNone = Ok "N/A"%string /\
  format_duration (VInt 0) = Ok "N/A"%string /\
  format_duration (VInt 5400000) = Ok "1h 30m"%string /\
  format_duration (VInt 1800000) = Ok "30m"%string.
Proof.
  intros B. split; [|repeat split; vm_compute; reflexivity].
  unfold format_duration, Spec.duration_display, truthy, floordiv_int, as_int.
  destruct (Z.eqb_spec ms 0) as [-> | N]; [reflexivity|]. simpl negb. cbv iota.
  assert (Bm : Z.abs (ms / 60000) < 10 ^ max_str_digits).
  { eapply Z.le_lt_trans; [apply div_abs_le; lia | exact B]. }
  rewrite (int_str_div (ms / 60000) 60 ltac:(lia) Bm), (int_str_mod60 (ms / 60000)),
    (int_str_ok (ms / 60000) Bm).
  destruct (Z.ltb_spec 0 (ms / 60000 / 60)) as [P | P];
    destruct (Z.leb_spec 60 (ms / 60000)) as [Q | Q]; try reflexivity; exfalso.
  - assert (ms / 60000 / 60 <= 0); [|lia].
    apply Z.lt_succ_r. apply Z.div_lt_upper_bound; lia.
  - assert (1 <= ms / 60000 / 60); [|lia].
    apply Z.div_le_lower_bound; lia.
Qed.

Lemma C5_duration_display_witness :
  format_duration (VInt 7530000) = Ok (Spec.duration_display 7530000) /\
  format_duration VNone = Ok "N/A"%string /\
  format_duration (VInt 0) = Ok "N/A"%string /\
  format_duration (VInt 5400000) = Ok "1h 30m"%string /\
  format_duration (VInt 1800000) = Ok "30m"%string.
Proof. apply (C5_duration_display 7530000). vm_compute. reflexivity. Defined.

Lemma append_m_not_na (x : string) : (x +:+ "m")%string <> "N/A"%string.
Proof.
  destruct x as [| a [| b [| c x]]]; simpl; try discriminate.
  destruct x; discriminate.
Qed.

(** C6.  The idle time on a card is [(now - updatedAt) / 60000] truncated
    toward zero and followed by [m], with 0 for an absent [updatedAt]; it is
    never ["N/A"].  The truncation is that of the display only: a record
    with no tokens that has been idle for five and a half minutes is shown
    as ["5m"] and classified as stuck. *)
Theorem C6_idle_display (s : loc) (w : world) (tokens updated : Z) :
  Spec.field_int (heap w s) "totalTokens" = Some tokens ->
  Spec.field_int (heap w s) "updatedAt" = Some updated ->
  float_range tokens ->
  Z.abs (clock w (ticks w) - updated) < 2 ^ 51 ->
  (exists c,
      render_agent_card s w = Ok (c, tick w) /\
      card_idle c = Spec.idle_minutes_display (clock w (ticks w)) updated /\
      card_idle c <> "N/A"%string) /\
  (exists c icon color,
      outcome (render_agent_card 0%nat (Examples.world_of [Examples.rec_half])) = Ok c /\
      card_idle c = "5m"%string /\
      outcome (get_status Examples.rec_half (Examples.world_of [Examples.rec_half])) =
      Ok ("stuck"%string, icon, color)).
Proof.
  intros Ht Hu Rt Hd. split.
  - assert (R : float_range (clock w (ticks w) - updated)).
    { unfold float_range. apply Z.lt_trans with (1 := Hd). apply Z.pow_lt_mono_r; lia. }
    destruct (render_agent_card_ok s w tokens updated Ht Hu R Rt) as (c & Ec & _ & Ei).
    exists c. split; [exact Ec|].
    rewrite (idle_float_trunc _ Hd) in Ei.
    split; [exact Ei|]. rewrite Ei. apply append_m_not_na.
  - eexists _, _, _. vm_compute. repeat split; reflexivity.
Qed.

Lemma C6_idle_display_witness :
  (exists c,
      render_agent_card 4%nat (Examples.world_of Examples.records5) =
      Ok (c, tick (Examples.world_of Examples.records5)) /\
      card_idle c = Spec.idle_minutes_display Examples.now0 0 /\
      card_idle c <> "N/A"%string) /\
  (exists c icon color,
      outcome (render_agent_card 0%nat (Examples.world_of [Examples.rec_half])) = Ok c /\
      card_idle c = "5m"%string /\
      outcome (get_status Examples.rec_half (Examples.world_of [Examples.rec_half])) =
      Ok ("stuck"%string, icon, color)).
Proof.
  apply (C6_idle_display 4%nat (Examples.world_of Examples.records5) 0 0).
  - reflexivity.
  - reflexivity.
  - vm_compute. reflexivity.
  - vm_compute. reflexivity.
Defined.

(** C7.  The classification loop is a function of the records' two
    classifier fields and of what the clock reads: two runs on the same
    list, over records with the same [totalTokens] and [updatedAt], under
    clocks that give the two runs the same readings (as when both read one
    instant [now] throughout), have the same outcome, that is the same
    three buckets in the same order or the same exception, and they leave
    the same status tag on every record. *)
Theorem C7_deterministic (sessions : list loc) (w1 w2 : world) :
  (forall i, (i < length sessions)%nat ->
             clock w1 (ticks w1 + i)%nat = clock w2 (ticks w2 + i)%nat) ->
  (forall s, s ∈ sessions -> same_input (heap w1 s) (heap w2 s)) ->
  outcome (categorize sessions w1) = outcome (categorize sessions w2) /\
  (forall b1 w1' b2 w2',
      categorize sessions w1 = Ok (b1, w1') ->
      categorize sessions w2 = Ok (b2, w2') ->
      b1 = b2 /\
      forall s, s ∈ sessions ->
        heap w1' s !! "_status"%string = heap w2' s !! "_status"%string).
Proof.
  intros Hk Hin.
  destruct (categorize_from_deterministic sessions [] [] [] w1 w2 Hk Hin) as [Ho Ht].
  split; [exact Ho|].
  intros b1 w1' b2 w2' E1 E2. split.
  - unfold categorize in *. rewrite E1, E2 in Ho. simpl in Ho. congruence.
  - exact (Ht _ _ _ _ E1 E2).
Qed.

Lemma C7_deterministic_witness :
  outcome (categorize (seq 0 5) (Examples.steady Examples.records5 0)) =
  outcome (categorize (seq 0 5)
             (Examples.steady (map Examples.relabel Examples.records5) 3)) /\
  (forall b1 w1' b2 w2',
      categorize (seq 0 5) (Examples.steady Examples.records5 0) = Ok (b1, w1') ->
      categorize (seq 0 5)
        (Examples.steady (map Examples.relabel Examples.records5) 3) = Ok (b2, w2') ->
      b1 = b2 /\
      forall s, s ∈ seq 0 5 ->
        heap w1' s !! "_status"%string = heap w2' s !! "_status"%string).
Proof.
  apply (C7_deterministic (seq 0 5) (Examples.steady Examples.records5 0)
           (Examples.steady (map Examples.relabel Examples.records5) 3)).
  - intros i _. reflexivity.
  - intros s Hs. simpl in Hs.
    repeat (apply elem_of_cons in Hs as [-> | Hs]);
      try (split; vm_compute; reflexivity).
    apply elem_of_nil in Hs. contradiction.
Defined.

(** C8 as stated fails.  A record whose [updatedAt] is [null] makes the
    classifier, and with it the whole of [generate_dashboard], raise
    [TypeError]: the defaults of [session.get] stand in for an absent key
    only. *)
Lemma C8_null_field_raises :
  outcome (get_status Examples.rec_null (Examples.world_of [Examples.rec_null])) =
  Raise TypeError /\
  outcome (generate_dashboard [0%nat] (Examples.world_of [Examples.rec_null])) =
  Raise TypeError.
Proof. split; vm_compute; reflexivity. Qed.

(** C8 (amended).  When the output of the session source cannot be parsed,
    which includes the text that [run_command] returns when the command
    raised, [get_sessions] returns the empty list and [main] ends with the
    page of the empty state and a total of 0.  On records whose numeric
    fields are each an int or absent the classification loop does not
    raise, and every record of the list is tagged, none is skipped; a
    record with both fields absent is classified with the defaults. *)
Theorem C8_no_fatal_error
    (subprocess_run : string -> string + string) (strip : string -> string)
    (json_loads : string -> option document) (sessions : list loc) (w : world) :
  json_loads (run_command subprocess_run strip sessions_command) = None ->
  (forall s, s ∈ sessions -> classifiable w (heap w s)) ->
  (forall e, subprocess_run sessions_command = inl e ->
             run_command subprocess_run strip sessions_command = ("Error: " +:+ e)%string) /\
  get_sessions subprocess_run strip json_loads w = Ok ([], w) /\
  (exists r,
      main subprocess_run strip json_loads w = Ok (r, tick w) /\
      index_html r =
      [Header (clock w (ticks w)); StatsGrid "0" "0" "0" "0"; EmptyState; Footer] /\
      stdout r !! 1%nat = Some "📊 Found 0 sessions"%string) /\
  (exists b w',
      categorize sessions w = Ok (b, w') /\
      ticks w' = (ticks w + length sessions)%nat /\
      forall s, s ∈ sessions -> exists name, name ∈ Spec.statuses /\ tagged w' name s) /\
  (forall session : dict,
      session !! "totalTokens"%string = None ->
      session !! "updatedAt"%string = None ->
      float_range (clock w (ticks w)) ->
      exists r, get_status session w = Ok (r, tick w)).
Proof.
  intros Hp Hc. split; [|split; [|split; [|split]]].
  - intros e He. unfold run_command. rewrite He. reflexivity.
  - apply get_sessions_unparsed. exact Hp.
  - unfold main. unfold bind at 1. rewrite (get_sessions_unparsed _ _ _ _ Hp).
    unfold bind at 1. rewrite generate_dashboard_empty. unfold ret.
    eexists. split; [reflexivity|]. split; reflexivity.
  - destruct (categorize_from_total sessions [] [] [] w Hc) as (b & w' & E).
    destruct (categorize_from_frame _ _ _ _ _ _ _ E) as (_ & _ & Ft & _).
    exists b, w'. split; [exact E|]. split; [exact Ft|].
    exact (categorize_from_tagged _ _ _ _ _ _ _ E).
  - intros session Ht Hu R.
    destruct (get_status_rule session w 0 0) as (icon & color & E).
    + unfold Spec.field_int. rewrite Ht. reflexivity.
    + unfold Spec.field_int. rewrite Hu. reflexivity.
    + rewrite Z.sub_0_r. exact R.
    + eauto.
Qed.

Lemma records5_classifiable s :
  s ∈ seq 0 5 ->
  classifiable (Examples.world_of Examples.records5)
               (heap (Examples.world_of Examples.records5) s).
Proof. intros Hs. exact (proj1 (records5_displayable s Hs)). Qed.

Lemma C8_no_fatal_error_witness :
  let subprocess_run := fun _ : string => inl "No such file or directory"%string in
  let strip := fun s : string => s in
  let json_loads := fun s : string =>
    if String.eqb s "{}" then Some (DocObject None) else None in
  let sessions := seq 0 5 in
  let w := Examples.world_of Examples.records5 in
  (forall e, subprocess_run sessions_command = inl e ->
             run_command subprocess_run strip sessions_command = ("Error: " +:+ e)%string) /\
  get_sessions subprocess_run strip json_loads w = Ok ([], w) /\
  (exists r,
      main subprocess_run strip json_loads w = Ok (r, tick w) /\
      index_html r =
      [Header (clock w (ticks w)); StatsGrid "0" "0" "0" "0"; EmptyState; Footer] /\
      stdout r !! 1%nat = Some "📊 Found 0 sessions"%string) /\
  (exists b w',
      categorize sessions w = Ok (b, w') /\
      ticks w' = (ticks w + length sessions)%nat /\
      forall s, s ∈ sessions -> exists name, name ∈ Spec.statuses /\ tagged w' name s) /\
  (forall session : dict,
      session !! "totalTokens"%string = None ->
      session !! "updatedAt"%string = None ->
      float_range (clock w (ticks w)) ->
      exists r, get_status session w = Ok (r, tick w)).
Proof.
  intros subprocess_run strip json_loads sessions w.
  apply (C8_no_fatal_error subprocess_run strip json_loads sessions w).
  - reflexivity.
  - exact records5_classifiable.
Defined.

(** C9.  The classification loop on distinct classifiable records only
    adds: in every record every key other than the three annotation keys,
    so [label], [kind], [model], [totalTokens] and [updatedAt], keeps its
    value or its absence; a record of the list ends as itself with the
    status, icon and colour of one classification, made at one reading of
    the clock during the loop, written into it; the loop reads the clock
    once per record; and a record outside the list is left as it was. *)
Theorem C9_annotation_additive (sessions : list loc) (w : world) :
  NoDup sessions ->
  (forall s, s ∈ sessions -> classifiable w (heap w s)) ->
  exists b w',
    categorize sessions w = Ok (b, w') /\
    (forall l key, key ∉ annotation_keys -> heap w' l !! key = heap w l !! key) /\
    (forall l key,
        key ∈ ["label"; "kind"; "model"; "totalTokens"; "updatedAt"]%string ->
        heap w' l !! key = heap w l !! key) /\
    (forall l, l ∈ sessions ->
       exists (i : nat) r,
         (ticks w <= i < ticks w + length sessions)%nat /\
         classify (heap w l) (clock w i) = Ok r /\
         heap w' l = annotate r (heap w l)) /\
    ticks w' = (ticks w + length sessions)%nat /\
    (forall l, l ∉ sessions -> heap w' l = heap w l).
Proof.
  intros ND Hc.
  destruct (categorize_from_total sessions [] [] [] w Hc) as (b & w' & E).
  destruct (categorize_from_frame _ _ _ _ _ _ _ E) as (_ & _ & Ft & Fh & Fk).
  destruct (categorize_from_buckets _ _ _ _ _ _ _ E ND) as (_ & Ha).
  exists b, w'. split; [exact E|]. split; [exact Fk|].
  split; [|split; [exact Ha | split; [exact Ft | exact Fh]]].
  intros l key Hk. apply Fk. unfold annotation_keys. intros Hin.
  repeat (apply elem_of_cons in Hk as [-> | Hk]);
    try (repeat (apply elem_of_cons in Hin as [Hin | Hin]; [discriminate|]);
         apply elem_of_nil in Hin; contradiction).
  apply elem_of_nil in Hk. contradiction.
Qed.

Lemma C9_annotation_additive_witness :
  let sessions := seq 0 5 in
  let w := Examples.world_of Examples.records5 in
  exists b w',
    categorize sessions w = Ok (b, w') /\
    (forall l key, key ∉ annotation_keys -> heap w' l !! key = heap w l !! key) /\
    (forall l key,
        key ∈ ["label"; "kind"; "model"; "totalTokens"; "updatedAt"]%string ->
        heap w' l !! key = heap w l !! key) /\
    (forall l, l ∈ sessions ->
       exists (i : nat) r,
         (ticks w <= i < ticks w + length sessions)%nat /\
         classify (heap w l) (clock w i) = Ok r /\
         heap w' l = annotate r (heap w l)) /\
    ticks w' = (ticks w + length sessions)%nat /\
    (forall l, l ∉ sessions -> heap w' l = heap w l).
Proof.
  intros sessions w.
  apply (C9_annotation_additive sessions w).
  - apply NoDup_seq.
  - exact records5_classifiable.
Defined.

(** C10.  The outcome of [get_status], status or exception, is the same
    for two records with the same [totalTokens] and [updatedAt] at the same
    reading of the clock, whatever their other fields are. *)
Theorem C10_status_depends_on_two_fields (d1 d2 : dict) (w1 w2 : world) :
  same_input d1 d2 ->
  clock w1 (ticks w1) = clock w2 (ticks w2) ->
  outcome (get_status d1 w1) = outcome (get_status d2 w2).
Proof.
  intros Hs Hc. rewrite !get_status_classify, Hc, (classify_same_input d1 d2 _ Hs).
  destruct (classify d2 (clock w2 (ticks w2))); reflexivity.
Qed.

Lemma C10_status_depends_on_two_fields_witness :
  outcome (get_status Examples.rec_completed (Examples.steady [] 0)) =
  outcome (get_status (Examples.relabel Examples.rec_completed) (Examples.steady [] 7)).
Proof.
  apply (C10_status_depends_on_two_fields Examples.rec_completed
           (Examples.relabel Examples.rec_completed)
           (Examples.steady [] 0) (Examples.steady [] 7)).
  - split; vm_compute; reflexivity.
  - reflexivity.
Defined.

(** * Further properties: the session source *)

(** X2.  When the output decodes to an object with a list of records under
    ["sessions"], [get_sessions] returns one reference per record, in the
    order of the list, and reading the heap through the references gives
    the records back. *)
Theorem X2_sessions_read_back
    (subprocess_run : string -> string + string) (strip : string -> string)
    (json_loads : string -> option document) (records : list dict) (w : world) :
  json_loads (run_command subprocess_run strip sessions_command) =
  Some (DocObject (Some records)) ->
  exists sessions w',
    get_sessions subprocess_run strip json_loads w = Ok (sessions, w') /\
    length sessions = length records /\
    map (heap w') sessions = records.
Proof.
  intros H.
  destruct (get_sessions_fresh subprocess_run strip json_loads records w H)
    as (w' & E & _ & _ & _ & Hrec).
  exists (seq (next w) (length records)), w'.
  split; [exact E|]. split; [apply length_seq|].
  apply list_eq. intros i. rewrite list_lookup_fmap.
  destruct (records !! i) as [d |] eqn:Ei.
  - rewrite lookup_seq_lt by (apply lookup_lt_Some in Ei; exact Ei).
    simpl. rewrite (Hrec i d Ei). reflexivity.
  - rewrite lookup_seq_ge by (apply lookup_ge_None in Ei; exact Ei). reflexivity.
Qed.

Lemma X2_sessions_read_back_witness :
  exists sessions w',
    get_sessions Examples.run_ok Examples.no_strip
      (Examples.loads_of Examples.records5) Examples.fresh_world = Ok (sessions, w') /\
    length sessions = length Examples.records5 /\
    map (heap w') sessions = Examples.records5.
Proof.
  apply (X2_sessions_read_back Examples.run_ok Examples.no_strip
           (Examples.loads_of Examples.records5) Examples.records5 Examples.fresh_world).
  reflexivity.
Defined.

(** * Further properties: the formatters *)

(** An int beyond [1000 * 2^1024] in magnitude has no float quotient by
    1000. *)
Lemma int_truediv_overflow d :
  1000 * 2 ^ 1024 <= Z.abs d -> int_truediv d 1000 = Raise OverflowError.
Proof.
  intros H. unfold int_truediv, finite.
  assert (E : pow2 1024 == inject_Z (2 ^ 1024)) by (apply pow2_Z; lia).
  assert (Rp := round_pow2 1024 ltac:(lia)).
  set (P := 2 ^ 1024) in *.
  assert (B : (pow2 1024 <= Qabs (round (inject_Z d / inject_Z 1000)))%Q).
  { destruct (Z_le_gt_dec 0 d) as [Pd | Nd].
    - assert (L : (pow2 1024 <= inject_Z d / inject_Z 1000)%Q).
      { apply Qle_shift_div_l; [reflexivity|].
        rewrite E, <- inject_Z_mult, <- Zle_Qle. lia. }
      assert (M := round_mono _ _ L). rewrite Rp in M.
      assert (P0 := pow2_pos 1024).
      rewrite Qabs_pos by lra. exact M.
    - assert (L : (inject_Z d / inject_Z 1000 <= - pow2 1024)%Q).
      { apply Qle_shift_div_r; [reflexivity|].
        rewrite E, <- inject_Z_opp, <- inject_Z_mult, <- Zle_Qle. lia. }
      assert (M := round_mono _ _ L). rewrite round_opp, Rp in M.
      assert (P0 := pow2_pos 1024).
      rewrite Qabs_neg by lra. lra. }
  apply Qle_bool_iff in B. rewrite B. reflexivity.
Qed.

(** X3.  [format_duration] on a non-zero int of at most 4300 decimal
    digits switches to hours exactly at 3600000 ms.  From there on it shows
    [ms // 3600000] hours, at least 1, and a number of minutes from 0 to
    59, and the two account for all of [ms] but the part below one minute;
    below it shows the whole minutes alone, fewer than 60. *)
Theorem X3_duration_hours_from_3600000 (ms : Z) :
  ms <> 0 ->
  Z.abs ms < 10 ^ max_str_digits ->
  (3600000 <= ms ->
   format_duration (VInt ms) =
   Ok (str_int (ms / 3600000) +:+ "h " +:+ str_int (ms / 60000 mod 60) +:+ "m")%string /\
   1 <= ms / 3600000 /\ 0 <= ms / 60000 mod 60 < 60 /\
   ms = 3600000 * (ms / 3600000) + 60000 * (ms / 60000 mod 60) + ms mod 60000) /\
  (ms < 3600000 ->
   format_duration (VInt ms) = Ok (str_int (ms / 60000) +:+ "m")%string /\
   ms / 60000 < 60).
Proof.
  intros N B.
  assert (Ed : ms / 60000 / 60 = ms / 3600000) by (rewrite Z.div_div by lia; reflexivity).
  assert (Bm : Z.abs (ms / 60000) < 10 ^ max_str_digits).
  { eapply Z.le_lt_trans; [apply div_abs_le; lia | exact B]. }
  assert (Sh := int_str_div (ms / 60000) 60 ltac:(lia) Bm).
  assert (Sr := int_str_mod60 (ms / 60000)).
  assert (Sm := int_str_ok (ms / 60000) Bm).
  assert (Hm := Z.div_mod ms 60000 ltac:(lia)).
  assert (Rm := Z.mod_pos_bound ms 60000 ltac:(lia)).
  assert (Hh := Z.div_mod (ms / 60000) 60 ltac:(lia)).
  assert (Rh := Z.mod_pos_bound (ms / 60000) 60 ltac:(lia)).
  unfold format_duration, truthy, floordiv_int, as_int.
  destruct (Z.eqb_spec ms 0) as [E | _]; [contradiction|]. simpl negb. cbv iota.
  rewrite Sh, Sr, Sm, Ed. split.
  - intros G.
    assert (1 <= ms / 3600000) by (apply Z.div_le_lower_bound; lia).
    destruct (Z.ltb_spec 0 (ms / 3600000)); [|lia].
    repeat split; try lia.
  - intros L.
    assert (ms / 3600000 <= 0).
    { apply Z.lt_succ_r. apply Z.div_lt_upper_bound; lia. }
    destruct (Z.ltb_spec 0 (ms / 3600000)); [lia|].
    split; [reflexivity|]. apply Z.div_lt_upper_bound; lia.
Qed.

Lemma X3_duration_hours_from_3600000_witness :
  (3600000 <= 5400000 ->
   format_duration (VInt 5400000) =
   Ok (str_int (5400000 / 3600000) +:+ "h " +:+ str_int (5400000 / 60000 mod 60) +:+ "m")%string /\
   1 <= 5400000 / 3600000 /\ 0 <= 5400000 / 60000 mod 60 < 60 /\
   5400000 = 3600000 * (5400000 / 3600000) + 60000 * (5400000 / 60000 mod 60)
             + 5400000 mod 60000) /\
  (5400000 < 3600000 ->
   format_duration (VInt 5400000) = Ok (str_int (5400000 / 60000) +:+ "m")%string /\
   5400000 / 60000 < 60).
Proof.
  apply (X3_duration_hours_from_3600000 5400000); [discriminate|].
  vm_compute. reflexivity.
Defined.

(** X4.  The formatters on values that are not ints.  A string is taken
    for a missing value when it is empty and makes the comparison or the
    floor division raise [TypeError] otherwise; [False] is a missing value;
    [True] is the int 1 to [format_duration] but is printed as [True] by
    [format_tokens]. *)
Theorem X4_formatters_on_non_ints (s : string) :
  format_tokens (VStr s) =
    (if decide (s = EmptyString) then Ok "0"%string else Raise TypeError) /\
  format_duration (VStr s) =
    (if decide (s = EmptyString) then Ok "N/A"%string else Raise TypeError) /\
  format_tokens (VBool false) = Ok "0"%string /\
  format_duration (VBool false) = Ok "N/A"%string /\
  format_tokens (VBool true) = Ok "True"%string /\
  format_duration (VBool true) = Ok "0m"%string.
Proof.
  split; [|split; [|repeat split; vm_compute; reflexivity]].
  - unfold format_tokens, truthy. destruct s as [| a s]; reflexivity.
  - unfold format_duration, truthy. destruct s as [| a s]; reflexivity.
Qed.

(** X5.  [format_tokens] prints a negative count of at most 4300 decimal
    digits as it is, with its sign and without abbreviation; on a negative
    count of more digits [str] raises [ValueError]. *)
Theorem X5_negative_tokens_as_is (n : Z) :
  n < 0 ->
  format_tokens (VInt n) =
  (if - 10 ^ max_str_digits <? n then Ok (str_int n) else Raise ValueError).
Proof.
  intros H. unfold format_tokens, truthy, ge_int, as_int.
  destruct (Z.eqb_spec n 0) as [E | _]; [lia|]. simpl negb. cbv iota.
  destruct (Z.leb_spec 1000 n); [lia|]. unfold str_value.
  destruct (Z.ltb_spec (- 10 ^ max_str_digits) n) as [L | G].
  - apply int_str_ok. lia.
  - apply int_str_raise. lia.
Qed.

Lemma X5_negative_tokens_as_is_witness :
  format_tokens (VInt (-5000)) =
  (if - 10 ^ max_str_digits <? -5000 then Ok (str_int (-5000)) else Raise ValueError).
Proof. apply (X5_negative_tokens_as_is (-5000)). reflexivity. Defined.

(** X6.  [format_tokens] raises [OverflowError] on a count of
    [1000 * 2^1024] or more: the quotient by 1000 is not a float. *)
Theorem X6_huge_tokens_overflow (n : Z) :
  1000 * 2 ^ 1024 <= n -> format_tokens (VInt n) = Raise OverflowError.
Proof.
  intros H.
  assert (P : 0 < 2 ^ 1024) by (apply Z.pow_pos_nonneg; lia).
  set (B := 2 ^ 1024) in *.
  unfold format_tokens, truthy, ge_int, truediv, as_int.
  destruct (Z.eqb_spec n 0) as [E | _]; [lia|]. simpl negb. cbv iota.
  destruct (Z.leb_spec 1000 n); [|lia].
  subst B. rewrite int_truediv_overflow by lia. reflexivity.
Qed.

Lemma X6_huge_tokens_overflow_witness :
  format_tokens (VInt (1000 * 2 ^ 1024)) = Raise OverflowError.
Proof. apply (X6_huge_tokens_overflow (1000 * 2 ^ 1024)). apply Z.le_refl. Defined.

Lemma tenths_mono n m :
  0 <= n -> n <= m -> tenths n <= tenths m.
Proof.
  intros Hn H. unfold tenths.
  assert (Pn := truediv_1000_nonneg n Hn).
  assert (Pm := truediv_1000_nonneg m ltac:(lia)).
  apply rne_mono. rewrite !Qabs_pos by assumption.
  apply Qmult_le_compat_r; [|discriminate].
  apply round_mono, div_const_mono; [lia|]. rewrite <- Zle_Qle. exact H.
Qed.

Lemma tenths_1000 : tenths 1000 = 10.
Proof. vm_compute. reflexivity. Qed.

(** X7.  From 1000 on the abbreviated count never decreases when the
    count grows: the tenths printed for [n] are at most those printed for a
    larger [m], and they are at least 10, so the part before the point is
    at least 1. *)
Theorem X7_abbreviation_monotone (n m : Z) :
  1000 <= n -> n <= m -> float_range m ->
  format_tokens (VInt n) = Ok (Spec.one_decimal (tenths n) +:+ "k")%string /\
  format_tokens (VInt m) = Ok (Spec.one_decimal (tenths m) +:+ "k")%string /\
  10 <= tenths n <= tenths m.
Proof.
  intros Hn H R.
  assert (Rn : float_range n).
  { unfold float_range in *. rewrite Z.abs_eq in * by lia. lia. }
  split; [apply format_tokens_large; assumption|].
  split; [apply format_tokens_large; [lia | assumption]|].
  split.
  - rewrite <- tenths_1000. apply tenths_mono; lia.
  - apply tenths_mono; lia.
Qed.

Lemma X7_abbreviation_monotone_witness :
  format_tokens (VInt 1049) = Ok (Spec.one_decimal (tenths 1049) +:+ "k")%string /\
  format_tokens (VInt 1051) = Ok (Spec.one_decimal (tenths 1051) +:+ "k")%string /\
  10 <= tenths 1049 <= tenths 1051.
Proof.
  apply (X7_abbreviation_monotone 1049 1051).
  - discriminate.
  - discriminate.
  - vm_compute. reflexivity.
Defined.

(** * Further properties: the classifier on unusual records *)

Lemma idle_minutes_get session now updated :
  Spec.field_int session "updatedAt" = Some updated ->
  float_range (now - updated) ->
  idle_minutes now (get session "updatedAt" (VInt 0)) = Ok (idle_float (now - updated)).
Proof.
  intros Hu R. rewrite (field_int_get _ _ _ Hu). apply idle_minutes_int. exact R.
Qed.

(** X8.  A record touched less than two minutes ago, or carrying a
    timestamp in the future, is active whatever [totalTokens] holds: an
    int, [None] or a string; the token count is never ordered against 0
    for it. *)
Theorem X8_recent_is_active (session : dict) (w : world) (updated : Z) :
  Spec.field_int session "updatedAt" = Some updated ->
  float_range (clock w (ticks w) - updated) ->
  clock w (ticks w) - updated < 120000 ->
  get_status session w = Ok (("active", "🟢", "#3fb950")%string, tick w).
Proof.
  intros Hu R L. rewrite get_status_classify. unfold classify.
  rewrite (idle_minutes_get _ _ _ Hu R), idle_float_gt5, idle_float_lt2.
  destruct (Z.ltb_spec 300000 (clock w (ticks w) - updated)); [lia|].
  rewrite andb_false_r.
  destruct (Z.ltb_spec (clock w (ticks w) - updated) 120000); [reflexivity | lia].
Qed.

Lemma X8_recent_is_active_witness :
  get_status (<["totalTokens" := VNone]> Examples.rec_active)
             (Examples.world_of []) =
  Ok (("active", "🟢", "#3fb950")%string, tick (Examples.world_of [])).
Proof.
  apply (X8_recent_is_active (<["totalTokens" := VNone]> Examples.rec_active)
           (Examples.world_of []) (Examples.now0 - 60000)).
  - reflexivity.
  - vm_compute. reflexivity.
  - reflexivity.
Defined.

(** A field that holds [None] or a string is no number. *)
Lemma get_none_or_str (session : dict) key v dflt :
  session !! key = Some v ->
  v = VNone \/ (exists t, v = VStr t) ->
  as_int (get session key dflt) = None.
Proof.
  intros Hk Hv. unfold get. rewrite Hk. simpl.
  destruct Hv as [-> | [t ->]]; reflexivity.
Qed.

(** X9.  A record whose [totalTokens] holds [None] or a string, and that
    has been idle for two minutes or more, makes [get_status] raise
    [TypeError] at [tokens > 0]. *)
Theorem X9_none_or_str_tokens_raise (session : dict) (w : world) (v : value) (updated : Z) :
  session !! "totalTokens"%string = Some v ->
  v = VNone \/ (exists t, v = VStr t) ->
  Spec.field_int session "updatedAt" = Some updated ->
  float_range (clock w (ticks w) - updated) ->
  120000 <= clock w (ticks w) - updated ->
  get_status session w = Raise TypeError.
Proof.
  intros Hk Hv Hu R G.
  assert (Ht := get_none_or_str session "totalTokens" v (VInt 0) Hk Hv).
  rewrite get_status_classify. unfold classify.
  rewrite (idle_minutes_get _ _ _ Hu R), idle_float_lt2.
  unfold eq_int, Py.gt_int. rewrite Ht. simpl andb. cbv iota.
  destruct (Z.ltb_spec (clock w (ticks w) - updated) 120000); [lia | reflexivity].
Qed.

Lemma X9_none_or_str_tokens_raise_witness :
  get_status (<["totalTokens" := VStr "many"]> Examples.rec_stuck) (Examples.world_of []) =
  Raise TypeError.
Proof.
  apply (X9_none_or_str_tokens_raise (<["totalTokens" := VStr "many"]> Examples.rec_stuck)
           (Examples.world_of []) (VStr "many") (Examples.now0 - 600000)).
  - reflexivity.
  - right. exists "many"%string. reflexivity.
  - reflexivity.
  - vm_compute. reflexivity.
  - discriminate.
Defined.

(** X10.  A record whose [updatedAt] holds [None] or a string makes
    [get_status] raise [TypeError] at [now - updated], whatever its
    [totalTokens]; [render_agent_card] raises on it in the same way. *)
Theorem X10_none_or_str_updated_raise (session : dict) (s : loc) (w : world) (v : value) :
  session !! "updatedAt"%string = Some v ->
  v = VNone \/ (exists t, v = VStr t) ->
  get_status session w = Raise TypeError /\
  (heap w s = session -> render_agent_card s w = Raise TypeError).
Proof.
  intros Hk Hv.
  assert (Hu := get_none_or_str session "updatedAt" v (VInt 0) Hk Hv).
  split.
  - rewrite get_status_classify. unfold classify, idle_minutes, int_sub.
    rewrite Hu. reflexivity.
  - intros <-. unfold render_agent_card, bind, deref, now_ms, lift, idle_minutes, int_sub.
    rewrite Hu. reflexivity.
Qed.

Lemma X10_none_or_str_updated_raise_witness :
  get_status Examples.rec_null (Examples.world_of [Examples.rec_null]) = Raise TypeError /\
  (heap (Examples.world_of [Examples.rec_null]) 0%nat = Examples.rec_null ->
   render_agent_card 0%nat (Examples.world_of [Examples.rec_null]) = Raise TypeError).
Proof.
  apply (X10_none_or_str_updated_raise Examples.rec_null 0%nat
           (Examples.world_of [Examples.rec_null]) VNone).
  - reflexivity.
  - left. reflexivity.
Defined.

(** X11.  When [now - updatedAt] is [1000 * 2^1024] or more in magnitude
    the true division by 1000 overflows and [get_status] raises
    [OverflowError], whatever the token count. *)
Theorem X11_idle_overflow (session : dict) (w : world) (updated : Z) :
  Spec.field_int session "updatedAt" = Some updated ->
  1000 * 2 ^ 1024 <= Z.abs (clock w (ticks w) - updated) ->
  get_status session w = Raise OverflowError.
Proof.
  intros Hu H. rewrite get_status_classify. unfold classify.
  rewrite (field_int_get _ _ _ Hu). unfold idle_minutes, int_sub, as_int.
  rewrite (int_truediv_overflow _ H). reflexivity.
Qed.

Lemma X11_idle_overflow_witness :
  get_status (<["updatedAt" := VInt (- (1000 * 2 ^ 1024))]> ∅) (Examples.world_of []) =
  Raise OverflowError.
Proof.
  apply (X11_idle_overflow (<["updatedAt" := VInt (- (1000 * 2 ^ 1024))]> ∅)
           (Examples.world_of []) (- (1000 * 2 ^ 1024))).
  - reflexivity.
  - vm_compute. discriminate.
Defined.

(** * Further properties: annotations and cards *)

Lemma classify_presentation (session : dict) now r :
  classify session now = Ok r -> r ∈ presentations.
Proof.
  unfold classify, presentations.
  destruct (idle_minutes _ _) as [x | e]; [|discriminate].
  destruct (eq_int _ 0 && gt_int x 5); [intros [= <-]; set_solver|].
  destruct (lt_int x 2); [intros [= <-]; set_solver|].
  destruct (Py.gt_int _ 0) as [[|] | e]; [| |discriminate];
    intros [= <-]; set_solver.
Qed.

Lemma annotate_presented r (session : dict) : presented (annotate r session) r.
Proof.
  destruct r as [[status icon] color]. unfold presented, annotate.
  split; [|split].
  - rewrite !lookup_insert_ne by discriminate. apply lookup_insert_eq.
  - rewrite lookup_insert_ne by discriminate. apply lookup_insert_eq.
  - apply lookup_insert_eq.
Qed.

(** Every object of the list ends with the three keys of one of the four
    results. *)
Lemma categorize_from_presented ss : forall A C S w b w',
  categorize_from ss A C S w = Ok (b, w') ->
  forall l, l ∈ ss -> exists r, r ∈ presentations /\ presented (heap w' l) r.
Proof.
  induction ss as [| s rest IH]; intros A C S w b w' E l Hl.
  - apply elem_of_nil in Hl. contradiction.
  - destruct (classify (heap w s) (clock w (ticks w))) as [[[status icon] color] | e] eqn:Ec.
    + destruct (categorize_from_step s rest A C S w _ _ _ Ec) as (w2 & Hh & _ & _ & _ & Eq).
      rewrite Eq in E.
      destruct (decide (l ∈ rest)) as [Hr | Hr]; [exact (IH _ _ _ _ _ _ E l Hr)|].
      apply elem_of_cons in Hl as [-> | Hl]; [|contradiction].
      destruct (categorize_from_frame _ _ _ _ _ _ _ E) as (_ & _ & _ & Fh & _).
      exists (status, icon, color). split; [exact (classify_presentation _ _ _ Ec)|].
      rewrite (Fh s Hr), Hh, decide_True by reflexivity.
      apply annotate_presented.
    + rewrite (categorize_from_raise s rest A C S w e Ec) in E. discriminate.
Qed.

(** X12.  After the loop every record of the list carries a status, an
    icon and a colour that belong together: the three keys hold one of the
    four results of [get_status], never the status of one and the icon or
    the colour of another.  This holds also when the list names an object
    more than once. *)
Theorem X12_annotation_consistent (sessions : list loc) (w : world) :
  (forall s, s ∈ sessions -> classifiable w (heap w s)) ->
  exists b w',
    categorize sessions w = Ok (b, w') /\
    forall s, s ∈ sessions ->
      exists r, r ∈ presentations /\ presented (heap w' s) r.
Proof.
  intros Hc.
  destruct (categorize_from_total sessions [] [] [] w Hc) as (b & w' & E).
  exists b, w'. split; [exact E|].
  exact (categorize_from_presented _ _ _ _ _ _ _ E).
Qed.

Lemma X12_annotation_consistent_witness :
  exists b w',
    categorize [0; 1; 0; 3]%nat (Examples.world_of Examples.records5) = Ok (b, w') /\
    forall s, s ∈ [0; 1; 0; 3]%nat ->
      exists r, r ∈ presentations /\ presented (heap w' s) r.
Proof.
  apply (X12_annotation_consistent [0; 1; 0; 3]%nat (Examples.world_of Examples.records5)).
  intros s Hs. apply records5_classifiable.
  repeat (apply elem_of_cons in Hs as [-> | Hs]);
    [ | | | | apply elem_of_nil in Hs; contradiction ];
    simpl; rewrite !elem_of_cons; auto 6.
Defined.

Lemma cards_in_app name (p q : html) :
  cards_in name (p ++ q) = cards_in name p ++ cards_in name q.
Proof. unfold cards_in. rewrite map_app, concat_app. reflexivity. Qed.

Lemma cards_in_section name n bucket cards more c :
  c ∈ cards_in name (section_of n bucket cards more) -> n = name /\ c ∈ cards.
Proof.
  unfold section_of, cards_in. destruct bucket as [| b bucket]; simpl.
  - intros H. apply elem_of_nil in H. contradiction.
  - destruct (decide (n = name)) as [-> | N]; simpl.
    + rewrite app_nil_r. auto.
    + intros H. apply elem_of_nil in H. contradiction.
Qed.

Lemma Forall2_elem_r {A B} (P : A -> B -> Prop) l k y :
  Forall2 P l k -> y ∈ k -> exists x, x ∈ l /\ P x y.
Proof.
  intros F. induction F as [| x y' l k Hxy F IH]; intros Hy.
  - apply elem_of_nil in Hy. contradiction.
  - apply elem_of_cons in Hy as [-> | Hy].
    + exists x. split; [left | exact Hxy].
    + destruct (IH Hy) as (x' & Hx' & Hp). exists x'. split; [right; exact Hx' | exact Hp].
Qed.

Lemma presented_status (session : dict) r name :
  presented session r -> session !! "_status"%string = Some (VStr name) ->
  r.1.1 = name /\ session !! "_icon"%string = Some (VStr r.1.2).
Proof.
  destruct r as [[status icon] color]. intros (Hs & Hi & _) Hn. simpl.
  split; [congruence | exact Hi].
Qed.

(** X13.  On the page every card stands in the section of its own status:
    a card in the section of bucket [name] shows the status [name] and the
    icon that [get_status] pairs with it. *)
Theorem X13_cards_match_section (sessions : list loc) (w : world) :
  NoDup sessions ->
  (forall s, s ∈ sessions -> displayable w (heap w s)) ->
  exists page w'',
    generate_dashboard sessions w = Ok (page, w'') /\
    forall name c,
      c ∈ cards_in name page ->
      name ∈ ["active"; "completed"; "stuck"]%string /\
      card_status c = name /\
      exists icon color, (name, icon, color) ∈ presentations /\ card_icon c = icon.
Proof.
  intros ND H.
  destruct (generate_dashboard_page sessions w ND H)
    as (A & C & S & w' & ca & cc & cs & w'' & Ec & HA & HC & HS & Eg & Fa & Fc & Fs).
  eexists _, w''. split; [exact Eg|].
  assert (K : forall name bucket c s,
             bucket = filter (tagged w' name) sessions ->
             s ∈ bucket -> card_of (heap w' s) c ->
             card_status c = name /\
             exists icon color, (name, icon, color) ∈ presentations /\ card_icon c = icon).
  { intros name bucket c s -> Hs Hc.
    apply list_elem_of_filter in Hs as [T Hs].
    destruct (categorize_from_presented _ _ _ _ _ _ _ Ec s Hs) as ([[st ic] co] & Hr & Hp).
    destruct (presented_status _ _ _ Hp T) as [E1 E2]. simpl in E1, E2. subst st.
    destruct Hc as (Hi & _ & _ & _ & _ & Hst).
    unfold get in Hi, Hst. unfold tagged in T. rewrite T in Hst. rewrite E2 in Hi.
    simpl in Hi, Hst. split; [exact Hst|]. exists ic, co. split; [exact Hr | exact Hi]. }
  intros name c Hc.
  rewrite !cards_in_app in Hc. rewrite !elem_of_app in Hc.
  destruct Hc as [Hc | [Hc | [Hc | [Hc | [Hc | Hc]]]]].
  - simpl in Hc. apply elem_of_nil in Hc. contradiction.
  - apply cards_in_section in Hc as [<- Hc].
    destruct (Forall2_elem_r _ _ _ _ Fa Hc) as (s & Hs & Hcard).
    split; [rewrite !elem_of_cons; auto|]. exact (K _ _ _ _ HA Hs Hcard).
  - apply cards_in_section in Hc as [<- Hc].
    destruct (Forall2_elem_r _ _ _ _ Fc Hc) as (s & Hs & Hcard).
    apply elem_of_take in Hs as (i & Hs & _). apply list_elem_of_lookup_2 in Hs.
    split; [rewrite !elem_of_cons; auto|]. exact (K _ _ _ _ HC Hs Hcard).
  - apply cards_in_section in Hc as [<- Hc].
    destruct (Forall2_elem_r _ _ _ _ Fs Hc) as (s & Hs & Hcard).
    split; [rewrite !elem_of_cons; auto|]. exact (K _ _ _ _ HS Hs Hcard).
  - destruct sessions; simpl in Hc; apply elem_of_nil in Hc; contradiction.
  - simpl in Hc. apply elem_of_nil in Hc. contradiction.
Qed.

Lemma X13_cards_match_section_witness :
  exists page w'',
    generate_dashboard (seq 0 5) (Examples.world_of Examples.records5) = Ok (page, w'') /\
    forall name c,
      c ∈ cards_in name page ->
      name ∈ ["active"; "completed"; "stuck"]%string /\
      card_status c = name /\
      exists icon color, (name, icon, color) ∈ presentations /\ card_icon c = icon.
Proof.
  apply (X13_cards_match_section (seq 0 5) (Examples.world_of Examples.records5)).
  - apply NoDup_seq.
  - exact records5_displayable.
Defined.

(** * Further properties: running the loop again, the page, the whole run *)

Lemma annotate_idem r (session : dict) :
  annotate r (annotate r session) = annotate r session.
Proof.
  destruct r as [[status icon] color]. unfold annotate.
  apply map_eq. intros key.
  destruct (decide (key = "_color"%string)) as [-> | Nc].
  { rewrite !lookup_insert_eq. reflexivity. }
  rewrite !(lookup_insert_ne _ "_color"%string) by congruence.
  destruct (decide (key = "_icon"%string)) as [-> | Ni].
  { rewrite !lookup_insert_eq. reflexivity. }
  rewrite !(lookup_insert_ne _ "_icon"%string) by congruence.
  destruct (decide (key = "_status"%string)) as [-> | Ns].
  { rewrite !lookup_insert_eq. reflexivity. }
  rewrite !lookup_insert_ne by congruence.
  reflexivity.
Qed.

Lemma same_input_frame (d d' : dict) :
  (forall key, key ∉ annotation_keys -> d' !! key = d !! key) -> same_input d' d.
Proof.
  intros H. split; apply H;
    [exact totalTokens_not_annotation | exact updatedAt_not_annotation].
Qed.

(** X14.  Under a clock that stands still, running the loop again over the
    records it has just annotated gives the same three buckets and changes
    nothing in the heap: the annotation keys are written again with the
    values they hold. *)
Theorem X14_second_run_changes_nothing (sessions : list loc) (w : world) :
  NoDup sessions ->
  (forall s, s ∈ sessions -> classifiable w (heap w s)) ->
  (forall i j, clock w i = clock w j) ->
  exists b w' w'',
    categorize sessions w = Ok (b, w') /\
    categorize sessions w' = Ok (b, w'') /\
    forall l, heap w'' l = heap w' l.
Proof.
  intros ND Hc Hk.
  destruct (categorize_from_total sessions [] [] [] w Hc) as (b & w' & E).
  destruct (categorize_from_frame _ _ _ _ _ _ _ E) as (Fc & _ & _ & Fh & Fk).
  destruct (categorize_from_buckets _ _ _ _ _ _ _ E ND) as (_ & Ha).
  assert (Hc' : forall s, s ∈ sessions -> classifiable w' (heap w' s)).
  { intros s Hs. destruct (Hc s Hs) as (t & u & Ht & Hu & R).
    exists t, u. unfold Spec.field_int.
    rewrite (Fk s _ totalTokens_not_annotation), (Fk s _ updatedAt_not_annotation), Fc.
    auto. }
  destruct (categorize_from_total sessions [] [] [] w' Hc') as (b2 & w'' & E2).
  destruct (categorize_from_deterministic sessions [] [] [] w' w) as [Ho _].
  { intros i _. rewrite Fc. apply Hk. }
  { intros l _. apply same_input_frame. intros key Hkey. apply Fk. exact Hkey. }
  rewrite E2, E in Ho. simpl in Ho. injection Ho as ->.
  exists b, w', w''. split; [exact E|]. split; [exact E2|].
  intros l.
  destruct (categorize_from_frame _ _ _ _ _ _ _ E2) as (_ & _ & _ & Fh2 & _).
  destruct (categorize_from_buckets _ _ _ _ _ _ _ E2 ND) as (_ & Ha2).
  destruct (decide (l ∈ sessions)) as [Hl | Hl]; [|apply Fh2; exact Hl].
  destruct (Ha l Hl) as (i & r & _ & Hr & Hw').
  destruct (Ha2 l Hl) as (j & r2 & _ & Hr2 & Hw'').
  assert (r2 = r).
  { rewrite Fc, (Hk j i) in Hr2.
    rewrite (classify_same_input (heap w' l) (heap w l)) in Hr2; [congruence|].
    apply same_input_frame. intros key Hkey. apply Fk. exact Hkey. }
  subst r2. rewrite Hw'', Hw'. apply annotate_idem.
Qed.

Lemma records5_classifiable_steady s :
  s ∈ seq 0 5 ->
  classifiable (Examples.steady Examples.records5 0)
               (heap (Examples.steady Examples.records5 0) s).
Proof.
  intros Hs. destruct (records5_classifiable s Hs) as (t & u & Ht & Hu & R).
  exists t, u. split; [exact Ht|]. split; [exact Hu|].
  intros i. exact (R 0%nat).
Qed.

Lemma X14_second_run_changes_nothing_witness :
  exists b w' w'',
    categorize (seq 0 5) (Examples.steady Examples.records5 0) = Ok (b, w') /\
    categorize (seq 0 5) w' = Ok (b, w'') /\
    forall l, heap w'' l = heap w' l.
Proof.
  apply (X14_second_run_changes_nothing (seq 0 5) (Examples.steady Examples.records5 0)).
  - apply NoDup_seq.
  - exact records5_classifiable_steady.
  - intros i j. reflexivity.
Defined.

Lemma status_idle updated now :
  120000 <= now - updated <= 300000 -> Spec.status 0 updated now = "idle"%string.
Proof.
  intros H. unfold Spec.status. rewrite real_gt5, real_lt2.
  destruct (Z.ltb_spec 300000 (now - updated)); [lia|].
  destruct (Z.ltb_spec (now - updated) 120000); [lia|]. reflexivity.
Qed.

Lemma filter_tagged_other w name other (ss : list loc) :
  other <> name ->
  (forall s, s ∈ ss -> tagged w other s) -> filter (tagged w name) ss = [].
Proof.
  intros N. induction ss as [| s ss IH]; intros H; [reflexivity|].
  rewrite (filter_tagged_head w name other s ss (H s ltac:(left))).
  rewrite decide_False by exact N. simpl.
  apply IH. intros l Hl. apply H. right. exact Hl.
Qed.

(** X15.  When the list is not empty and every record is idle (no tokens,
    last touched between two and five minutes before each reading of the
    clock), the page has the header, four counts of which the first three
    are 0, and the footer: no section, and no "No agents found" block
    either, since that one is shown for an empty list only. *)
Theorem X15_only_idle_records_page (sessions : list loc) (w : world) :
  sessions <> [] ->
  NoDup sessions ->
  (forall s, s ∈ sessions ->
     exists updated,
       Spec.field_int (heap w s) "totalTokens" = Some 0 /\
       Spec.field_int (heap w s) "updatedAt" = Some updated /\
       forall i, 120000 <= clock w i - updated <= 300000) ->
  exists w'',
    generate_dashboard sessions w =
    Ok ([ Header (clock w (ticks w + length sessions)%nat);
          StatsGrid "0" "0" "0" (str_int (len sessions));
          Footer ], w'').
Proof.
  intros Hne ND H.
  assert (Hd : forall s, s ∈ sessions -> displayable w (heap w s)).
  { intros s Hs. destruct (H s Hs) as (u & Ht & Hu & R).
    split.
    - exists 0, u. split; [exact Ht|]. split; [exact Hu|].
      intros i. apply float_range_small. specialize (R i).
      change (2 ^ 64) with 18446744073709551616. lia.
    - exists 0. split; [exact Ht|]. apply float_range_small. reflexivity. }
  destruct (generate_dashboard_page sessions w ND Hd)
    as (A & C & S & w' & ca & cc & cs & w'' & Ec & HA & HC & HS & Eg & _).
  assert (T : forall s, s ∈ sessions -> tagged w' "idle" s).
  { intros s Hs.
    destruct (categorize_from_buckets _ _ _ _ _ _ _ Ec ND) as (_ & Ha).
    destruct (Ha s Hs) as (i & r & _ & Hr & Hw').
    destruct (H s Hs) as (u & Ht & Hu & R).
    destruct (classify_rule (heap w s) (clock w i) 0 u Ht Hu) as (icon & color & Hc).
    { apply float_range_small. specialize (R i).
      change (2 ^ 64) with 18446744073709551616. lia. }
    rewrite (status_idle _ _ (R i)) in Hc.
    assert (r = ("idle"%string, icon, color)) by congruence. subst r.
    unfold tagged. rewrite Hw'. apply annotate_status. }
  rewrite (filter_tagged_other w' "active" "idle" sessions) in HA by (discriminate || exact T).
  rewrite (filter_tagged_other w' "completed" "idle" sessions) in HC by (discriminate || exact T).
  rewrite (filter_tagged_other w' "stuck" "idle" sessions) in HS by (discriminate || exact T).
  subst A C S. exists w''. rewrite Eg.
  destruct sessions as [| s0 rest]; [contradiction|]. reflexivity.
Qed.

Lemma records_idle_all s :
  s ∈ seq 0 2 ->
  exists updated,
    Spec.field_int (heap (Examples.world_of Examples.records_idle) s) "totalTokens" = Some 0 /\
    Spec.field_int (heap (Examples.world_of Examples.records_idle) s) "updatedAt"
    = Some updated /\
    forall i, 120000 <= clock (Examples.world_of Examples.records_idle) i - updated <= 300000.
Proof.
  intros Hs. simpl in Hs. exists (Examples.now0 - 180000).
  repeat (apply elem_of_cons in Hs as [-> | Hs]);
    [ | | apply elem_of_nil in Hs; contradiction ];
    (split; [reflexivity|]; split; [reflexivity|]; intros i;
     unfold Examples.world_of, Examples.clock0, Examples.now0; simpl clock; lia).
Qed.

Lemma X15_only_idle_records_page_witness :
  exists w'',
    generate_dashboard (seq 0 2) (Examples.world_of Examples.records_idle) =
    Ok ([ Header (clock (Examples.world_of Examples.records_idle)
                    (ticks (Examples.world_of Examples.records_idle) + length (seq 0 2))%nat);
          StatsGrid "0" "0" "0" (str_int (len (seq 0 2)));
          Footer ], w'').
Proof.
  apply (X15_only_idle_records_page (seq 0 2) (Examples.world_of Examples.records_idle)).
  - discriminate.
  - apply NoDup_seq.
  - exact records_idle_all.
Defined.

Lemma render_agent_card_frame s w c w' :
  render_agent_card s w = Ok (c, w') -> w' = tick w.
Proof.
  unfold render_agent_card, bind, deref, now_ms, lift, ret. fold (tick w).
  destruct (idle_minutes _ _) as [x | e]; [|discriminate].
  destruct (format_tokens _) as [t | e]; [|discriminate].
  intros [= _ <-]. reflexivity.
Qed.

Lemma mapM_render_frame l : forall w cards w',
  mapM render_agent_card l w = Ok (cards, w') ->
  heap w' = heap w /\ next w' = next w /\ clock w' = clock w /\
  ticks w' = (ticks w + length l)%nat.
Proof.
  induction l as [| s l IH]; intros w cards w' E.
  - simpl in E. unfold ret in E. injection E as _ <-. simpl. auto with lia.
  - simpl in E. unfold bind at 1 in E.
    destruct (render_agent_card s w) as [[c w1] | e] eqn:Ec; [|discriminate].
    apply render_agent_card_frame in Ec. subst w1.
    unfold bind at 1 in E.
    destruct (mapM render_agent_card l (tick w)) as [[cs w2] | e] eqn:Em; [|discriminate].
    unfold ret in E. injection E as _ <-.
    destruct (IH _ _ _ Em) as (Hh & Hn & Hc & Ht).
    simpl in *. repeat split; try assumption. lia.
Qed.

Lemma section_frame name (bucket shown : list loc) more (page : list block) w p w' :
  match bucket with
  | [] => ret page
  | _ => do cards <- mapM render_agent_card shown;
         ret (page ++ [AgentSection name cards more])
  end w = Ok (p, w') ->
  heap w' = heap w /\ next w' = next w /\ clock w' = clock w /\
  (ticks w <= ticks w' <= ticks w + length shown)%nat.
Proof.
  destruct bucket as [| b bucket].
  - unfold ret. intros [= _ <-]. auto with lia.
  - unfold bind.
    destruct (mapM render_agent_card shown w) as [[cs w1] | e] eqn:Em; [|discriminate].
    unfold ret. intros [= _ <-].
    destruct (mapM_render_frame _ _ _ _ Em) as (Hh & Hn & Hc & Ht).
    repeat split; try assumption; lia.
Qed.

(** The report writes nothing, allocates nothing, and reads the clock once
    for the header and at most once per shown card. *)
Lemma render_frame sessions A C S w page w' :
  render sessions (A, C, S) w = Ok (page, w') ->
  heap w' = heap w /\ next w' = next w /\ clock w' = clock w /\
  (ticks w < ticks w' <= ticks w + 1 + length A + length C + length S)%nat.
Proof.
  unfold render. unfold bind at 1. unfold now_ms. fold (tick w).
  unfold bind at 1.
  match goal with
  | |- match ?c with Ok _ => _ | Raise _ => _ end = _ -> _ =>
      destruct c as [[p1 w1] | e] eqn:E1; [|discriminate]
  end.
  apply section_frame in E1 as (Hh1 & Hn1 & Hc1 & Ht1).
  unfold bind at 1.
  match goal with
  | |- match ?c with Ok _ => _ | Raise _ => _ end = _ -> _ =>
      destruct c as [[p2 w2] | e] eqn:E2; [|discriminate]
  end.
  apply section_frame in E2 as (Hh2 & Hn2 & Hc2 & Ht2).
  unfold bind at 1.
  match goal with
  | |- match ?c with Ok _ => _ | Raise _ => _ end = _ -> _ =>
      destruct c as [[p3 w3] | e] eqn:E3; [|discriminate]
  end.
  apply section_frame in E3 as (Hh3 & Hn3 & Hc3 & Ht3).
  unfold ret. intros [= _ <-].
  assert (Lt : (length (take 10 C) <= length C)%nat).
  { rewrite length_take. apply Nat.le_min_r. }
  unfold tick in *. cbn [heap next clock ticks] in *.
  repeat split; try congruence; lia.
Qed.

(** X16.  What [generate_dashboard] leaves alone, report included: it
    allocates nothing, every key other than the three annotation keys
    keeps its value in every object, objects outside the list are
    untouched, and the clock is read at least [len(sessions) + 1] and at
    most [2 * len(sessions) + 1] times. *)
Theorem X16_dashboard_frame (sessions : list loc) (w : world) :
  NoDup sessions ->
  (forall s, s ∈ sessions -> displayable w (heap w s)) ->
  exists page w'',
    generate_dashboard sessions w = Ok (page, w'') /\
    next w'' = next w /\ clock w'' = clock w /\
    (forall l key, key ∉ annotation_keys -> heap w'' l !! key = heap w l !! key) /\
    (forall l, l ∉ sessions -> heap w'' l = heap w l) /\
    (ticks w + length sessions + 1 <= ticks w'' <= ticks w + 2 * length sessions + 1)%nat.
Proof.
  intros ND H.
  destruct (generate_dashboard_page sessions w ND H)
    as (A & C & S & w' & ca & cc & cs & w'' & Ec & HA & HC & HS & Eg & _).
  destruct (categorize_from_frame _ _ _ _ _ _ _ Ec) as (Fc & Fn & Ft & Fh & Fk).
  assert (Er : render sessions (A, C, S) w' = Ok
                 ([ Header (clock w (ticks w + length sessions)%nat);
                    StatsGrid (str_int (len A)) (str_int (len C)) (str_int (len S))
                              (str_int (len sessions)) ]
                  ++ section_of "active" A ca None
                  ++ section_of "completed" C cc
                       (if 10 <? len C then Some (str_int (len C - 10)) else None)
                  ++ section_of "stuck" S cs None
                  ++ (match sessions with [] => [EmptyState] | _ => [] end)
                  ++ [Footer], w'')).
  { rewrite <- Eg. unfold generate_dashboard, bind. rewrite Ec. reflexivity. }
  destruct (render_frame _ _ _ _ _ _ _ Er) as (Rh & Rn & Rc & Rt).
  assert (L : (length A + length C + length S <= length sessions)%nat).
  { pose proof (filter_tagged_length w' sessions
                  (categorize_from_tagged _ _ _ _ _ _ _ Ec)) as Hl.
    rewrite <- HA, <- HC, <- HS in Hl. lia. }
  eexists _, w''. split; [exact Eg|].
  split; [congruence|]. split; [congruence|].
  split; [intros l key Hk; rewrite Rh; apply Fk; exact Hk|].
  split; [intros l Hl; rewrite Rh; apply Fh; exact Hl|].
  lia.
Qed.

Lemma X16_dashboard_frame_witness :
  exists page w'',
    generate_dashboard (seq 0 5) (Examples.world_of Examples.records5) = Ok (page, w'') /\
    next w'' = next (Examples.world_of Examples.records5) /\
    clock w'' = clock (Examples.world_of Examples.records5) /\
    (forall l key, key ∉ annotation_keys ->
       heap w'' l !! key = heap (Examples.world_of Examples.records5) l !! key) /\
    (forall l, l ∉ seq 0 5 -> heap w'' l = heap (Examples.world_of Examples.records5) l) /\
    (ticks (Examples.world_of Examples.records5) + length (seq 0 5) + 1 <= ticks w''
     <= ticks (Examples.world_of Examples.records5) + 2 * length (seq 0 5) + 1)%nat.
Proof.
  apply (X16_dashboard_frame (seq 0 5) (Examples.world_of Examples.records5)).
  - apply NoDup_seq.
  - exact records5_displayable.
Defined.

Lemma empty_state_not_in_section name bucket cards more :
  EmptyState ∉ section_of name bucket cards more.
Proof.
  unfold section_of. destruct bucket; [apply not_elem_of_nil|].
  intros H. apply list_elem_of_singleton in H. discriminate.
Qed.

(** X17.  The run up to the write of the page, on a document that decodes
    to a list of records with int or absent numeric fields: [main] reaches
    the [open] of line 388 having printed three lines, the second of them
    ["Found N sessions"] with [N] the number of records; the page it hands
    to the writer shows the same [N] in the fourth stat card, and shows the
    empty state exactly when the list is empty. *)
Theorem X17_main_reports_every_record
    (subprocess_run : string -> string + string) (strip : string -> string)
    (json_loads : string -> option document) (records : list dict) (w : world) :
  json_loads (run_command subprocess_run strip sessions_command) =
  Some (DocObject (Some records)) ->
  (forall d, d ∈ records -> displayable w d) ->
  exists r w' a c s,
    main subprocess_run strip json_loads w = Ok (r, w') /\
    stdout r =
    [ "🔍 Fetching agent sessions...";
      "📊 Found " +:+ str_int (len records) +:+ " sessions";
      "🎨 Generating dashboard..." ]%string /\
    index_html r !! 1%nat = Some (StatsGrid a c s (str_int (len records))) /\
    (EmptyState ∈ index_html r <-> records = []).
Proof.
  intros Hj Hd.
  destruct (get_sessions_fresh subprocess_run strip json_loads records w Hj)
    as (w1 & Eg & ND & Hc & Ht & Hrec).
  set (sessions := seq (next w) (length records)) in *.
  assert (Hl : @len loc sessions = len records).
  { unfold len, sessions. rewrite length_seq. reflexivity. }
  assert (Hd1 : forall s, s ∈ sessions -> displayable w1 (heap w1 s)).
  { intros s Hs. apply elem_of_seq in Hs.
    destruct (lookup_lt_is_Some_2 records (s - next w)%nat ltac:(lia)) as (d & Ed).
    pose proof (Hrec _ _ Ed) as Hh.
    replace (next w + (s - next w))%nat with s in Hh by lia.
    rewrite Hh. apply (displayable_frame w); [exact Hc|].
    apply Hd. apply list_elem_of_lookup_2 in Ed. exact Ed. }
  destruct (generate_dashboard_page sessions w1 ND Hd1)
    as (A & C & S & w' & ca & cc & cs & w'' & _ & _ & _ & _ & Ed & _).
  eexists _, w'', _, _, _.
  split.
  { unfold main. unfold bind at 1. rewrite Eg. unfold bind at 1. rewrite Ed.
    unfold ret. reflexivity. }
  cbn [stdout index_html]. rewrite Hl.
  split; [reflexivity|]. split; [reflexivity|].
  assert (Hs : sessions = [] <-> records = []).
  { unfold sessions. destruct records; simpl; split; intros; congruence. }
  rewrite <- Hs. rewrite !elem_of_app. split.
  - intros [H | [H | [H | [H | [H | H]]]]].
    + repeat (apply elem_of_cons in H as [H | H]; [discriminate|]).
      apply elem_of_nil in H. contradiction.
    + apply empty_state_not_in_section in H. contradiction.
    + apply empty_state_not_in_section in H. contradiction.
    + apply empty_state_not_in_section in H. contradiction.
    + destruct sessions; [reflexivity|]. apply elem_of_nil in H. contradiction.
    + apply list_elem_of_singleton in H. discriminate.
  - intros ->. right. right. right. right. left. left.
Qed.

Lemma records5_displayable_anywhere w d :
  clock w = Examples.clock0 -> d ∈ Examples.records5 -> displayable w d.
Proof.
  intros Hc Hd. unfold Examples.records5 in Hd.
  repeat (apply elem_of_cons in Hd as [-> | Hd]).
  - apply (record_displayable _ 0 60000 EmptyString); [exact Hc | reflexivity | reflexivity].
  - apply (record_displayable _ 0 600000 EmptyString); [exact Hc | reflexivity | reflexivity].
  - apply (record_displayable _ 500 180000 "build"); [exact Hc | reflexivity | reflexivity].
  - apply (record_displayable _ 0 180000 EmptyString); [exact Hc | reflexivity | reflexivity].
  - apply bare_displayable. exact Hc.
  - apply elem_of_nil in Hd. contradiction.
Qed.

Lemma X17_main_reports_every_record_witness :
  exists r w' a c s,
    main Examples.run_ok Examples.no_strip (Examples.loads_of Examples.records5)
         Examples.fresh_world = Ok (r, w') /\
    stdout r =
    [ "🔍 Fetching agent sessions...";
      "📊 Found " +:+ str_int (len Examples.records5) +:+ " sessions";
      "🎨 Generating dashboard..." ]%string /\
    index_html r !! 1%nat = Some (StatsGrid a c s (str_int (len Examples.records5))) /\
    (EmptyState ∈ index_html r <-> Examples.records5 = []).
Proof.
  apply (X17_main_reports_every_record Examples.run_ok Examples.no_strip
           (Examples.loads_of Examples.records5) Examples.records5 Examples.fresh_world).
  - reflexivity.
  - intros d Hd. apply records5_displayable_anywhere; [reflexivity | exact Hd].
Defined.

(** X18.  The two time displays round differently below zero.  For a
    record whose timestamp lies less than a minute in the future the card
    shows ["0m"], since [int()] truncates toward zero, while
    [format_duration] on the same negative number of milliseconds shows
    ["-1m"], since [//] takes the floor. *)
Theorem X18_truncation_against_floor (s : loc) (w : world) (tokens updated : Z) :
  Spec.field_int (heap w s) "totalTokens" = Some tokens ->
  Spec.field_int (heap w s) "updatedAt" = Some updated ->
  float_range tokens ->
  -60000 < clock w (ticks w) - updated < 0 ->
  (exists c, render_agent_card s w = Ok (c, tick w) /\ card_idle c = "0m"%string) /\
  format_duration (VInt (clock w (ticks w) - updated)) = Ok "-1m"%string.
Proof.
  intros Ht Hu Rt Hd. set (d := clock w (ticks w) - updated) in *. split.
  - assert (B : Z.abs d < 2 ^ 51).
    { change (2 ^ 51) with 2251799813685248. lia. }
    assert (R : float_range d).
    { unfold float_range. apply Z.lt_trans with (1 := B). apply Z.pow_lt_mono_r; lia. }
    destruct (render_agent_card_ok s w tokens updated Ht Hu R Rt) as (c & Ec & _ & Ei).
    exists c. split; [exact Ec|]. fold d in Ei.
    rewrite (idle_float_trunc _ B) in Ei.
    assert (Q : Z.quot d 60000 = 0) by (apply Z.quot_small_iff; lia).
    rewrite Q in Ei. exact Ei.
  - unfold format_duration, truthy, floordiv_int, as_int.
    destruct (Z.eqb_spec d 0) as [E | _]; [lia|]. simpl negb. cbv iota.
    assert (Q : d / 60000 = -1).
    { symmetry. apply Z.div_unique with (r := d + 60000). left. lia. lia. }
    rewrite Q. reflexivity.
Qed.

Lemma X18_truncation_against_floor_witness :
  (exists c,
      render_agent_card 0%nat (Examples.world_of [Examples.rec_future]) =
      Ok (c, tick (Examples.world_of [Examples.rec_future])) /\
      card_idle c = "0m"%string) /\
  format_duration
    (VInt (clock (Examples.world_of [Examples.rec_future])
             (ticks (Examples.world_of [Examples.rec_future]))
           - (Examples.now0 - -30000))) = Ok "-1m"%string.
Proof.
  apply (X18_truncation_against_floor 0%nat (Examples.world_of [Examples.rec_future])
           0 (Examples.now0 - -30000)).
  - reflexivity.
  - reflexivity.
  - vm_compute. reflexivity.
  - vm_compute. split; reflexivity.
Defined.

(** X19.  The card of a record that has none of the keys the program
    reads: the label is ["unnamed"], kind and model are ["unknown"], the
    tokens are ["0"], and since it was never classified the status is
    ["unknown"] with the white icon; the idle time is counted from the
    epoch. *)
Theorem X19_card_of_bare_record (s : loc) (w : world) :
  (forall key,
      key ∈ ["label"; "kind"; "model"; "totalTokens"; "updatedAt"; "_status"; "_icon"]%string ->
      heap w s !! key = None) ->
  Z.abs (clock w (ticks w)) < 2 ^ 51 ->
  render_agent_card s w =
  Ok ({| card_icon := "⚪";
         card_label := "unnamed";
         card_kind := "unknown";
         card_model := "unknown";
         card_idle := (str_int (Z.quot (clock w (ticks w)) 60000) +:+ "m")%string;
         card_tokens := "0";
         card_status := "unknown" |}, tick w).
Proof.
  intros H B.
  assert (K : forall key dflt,
             key ∈ ["label"; "kind"; "model"; "totalTokens"; "updatedAt";
                    "_status"; "_icon"]%string ->
             get (heap w s) key dflt = dflt).
  { intros key dflt Hk. unfold get. rewrite (H key Hk). reflexivity. }
  assert (R : float_range (clock w (ticks w) - 0)).
  { rewrite Z.sub_0_r. unfold float_range. apply Z.lt_trans with (1 := B).
    apply Z.pow_lt_mono_r; lia. }
  unfold render_agent_card, bind, deref, now_ms, lift, ret. fold (tick w).
  rewrite !K by (rewrite !elem_of_cons; auto 10).
  rewrite (idle_minutes_int _ _ R). rewrite Z.sub_0_r.
  rewrite (idle_float_trunc _ B). reflexivity.
Qed.

Lemma X19_card_of_bare_record_witness :
  render_agent_card 0%nat (Examples.world_of []) =
  Ok ({| card_icon := "⚪";
         card_label := "unnamed";
         card_kind := "unknown";
         card_model := "unknown";
         card_idle :=
           (str_int (Z.quot (clock (Examples.world_of []) (ticks (Examples.world_of [])))
                            60000) +:+ "m")%string;
         card_tokens := "0";
         card_status := "unknown" |}, tick (Examples.world_of [])).
Proof.
  apply (X19_card_of_bare_record 0%nat (Examples.world_of [])).
  - intros key _. reflexivity.
  - vm_compute. reflexivity.
Defined.

Lemma categorize_from_prefix pre rest : forall A C S w,
  (forall l, l ∈ pre -> classifiable w (heap w l)) ->
  exists A' C' S' w',
    categorize_from (pre ++ rest) A C S w = categorize_from rest A' C' S' w' /\
    clock w' = clock w /\
    (forall l key, key ∉ annotation_keys -> heap w' l !! key = heap w l !! key).
Proof.
  induction pre as [| s pre IH]; intros A C S w H.
  - exists A, C, S, w. simpl. auto.
  - destruct (H s ltac:(left)) as (tokens & updated & Ht & Hu & R).
    destruct (classify_rule (heap w s) (clock w (ticks w)) tokens updated Ht Hu (R _))
      as (icon & color & Ec).
    destruct (categorize_from_step s (pre ++ rest) A C S w _ _ _ Ec)
      as (w2 & Hh & _ & Hc & _ & Eq).
    destruct (IH (put "active" (Spec.status tokens updated (clock w (ticks w))) s A)
                 (put "completed" (Spec.status tokens updated (clock w (ticks w))) s C)
                 (put "stuck" (Spec.status tokens updated (clock w (ticks w))) s S) w2)
      as (A' & C' & S' & w' & E' & Hc' & Hk').
    { intros l Hl. eapply classifiable_step; [exact Hh | exact Hc |]. apply H. right. exact Hl. }
    exists A', C', S', w'.
    change ((s :: pre) ++ rest) with (s :: (pre ++ rest)).
    rewrite Eq, E'. split; [reflexivity|].
    split; [congruence|].
    intros l key Hk. rewrite (Hk' l key Hk), Hh.
    destruct (decide (l = s)); [apply annotate_lookup_other; exact Hk | reflexivity].
Qed.

(** X20.  Nothing catches an exception of the classifier: when the records
    before some record of the list are classifiable and that record has an
    [updatedAt] that holds [None] or a string, [generate_dashboard] raises
    [TypeError] and returns no page, whatever follows in the list. *)
Theorem X20_exception_leaves_no_page (pre post : list loc) (s : loc) (w : world) (v : value) :
  (forall l, l ∈ pre -> classifiable w (heap w l)) ->
  heap w s !! "updatedAt"%string = Some v ->
  v = VNone \/ (exists t, v = VStr t) ->
  generate_dashboard (pre ++ s :: post) w = Raise TypeError.
Proof.
  intros Hp Hk0 Hv.
  assert (Hs := get_none_or_str (heap w s) "updatedAt" v (VInt 0) Hk0 Hv).
  destruct (categorize_from_prefix pre (s :: post) [] [] [] w Hp)
    as (A & C & S & w' & E & Hc & Hk).
  unfold generate_dashboard, bind, categorize. rewrite E.
  rewrite (categorize_from_raise s post A C S w' TypeError); [reflexivity|].
  unfold classify, idle_minutes, int_sub, get.
  rewrite (Hk s _ updatedAt_not_annotation). unfold get in Hs. rewrite Hs. reflexivity.
Qed.

Lemma X20_exception_leaves_no_page_witness :
  generate_dashboard ([0; 1] ++ 5 :: [2; 3])%nat
    (Examples.world_of (Examples.records5 ++ [Examples.rec_null])) = Raise TypeError.
Proof.
  apply (X20_exception_leaves_no_page [0; 1]%nat [2; 3]%nat 5%nat
           (Examples.world_of (Examples.records5 ++ [Examples.rec_null])) VNone).
  - intros l Hl.
    repeat (apply elem_of_cons in Hl as [-> | Hl]);
      [ | | apply elem_of_nil in Hl; contradiction ].
    + exact (proj1 (proj2 (record_displayable
               (Examples.world_of (Examples.records5 ++ [Examples.rec_null]))
               0 60000 EmptyString eq_refl eq_refl eq_refl))).
    + exact (proj1 (proj2 (record_displayable
               (Examples.world_of (Examples.records5 ++ [Examples.rec_null]))
               0 600000 EmptyString eq_refl eq_refl eq_refl))).
  - reflexivity.
  - left. reflexivity.
Defined.
